(** * commit-notes: the Git controls of the renderer

    A shallow embedding of [src/renderer/components/GitOps/GitControls.tsx]:
    the classification of isomorphic-git's status matrix into staged and
    unstaged changes, and the handlers that drive the external Git
    capability ([window.api.git]) and the component's React state. *)

From Stdlib Require Import List String Ascii Bool Arith Lia.
Import ListNotations.

Local Open Scope string_scope.
Local Open Scope list_scope.

Set Implicit Arguments.

(* ================================================================== *)
(** * Data model *)
(* ================================================================== *)

(** Modelled from the spec: [types/gitStatus] is not among the sources.
    The three enumerations are the closed ones of the data model, whose
    members the classifier compares with [===]; the numeric codes in the
    handler's comments ([0,2,0], [1,2,3], ...) are those of isomorphic-git. *)
Module HeadStatus.
Inductive t : Type := ABSENT | PRESENT.

Definition eqb (a b : t) : bool :=
  match a, b with
  | ABSENT, ABSENT | PRESENT, PRESENT => true
  | _, _ => false
  end.
End HeadStatus.

Module WorkdirStatus.
Inductive t : Type := ABSENT | IDENTICAL | MODIFIED.

Definition eqb (a b : t) : bool :=
  match a, b with
  | ABSENT, ABSENT | IDENTICAL, IDENTICAL | MODIFIED, MODIFIED => true
  | _, _ => false
  end.
End WorkdirStatus.

Module StageStatus.
Inductive t : Type := ABSENT | IDENTICAL | MODIFIED | MODIFIED_AGAIN.

Definition eqb (a b : t) : bool :=
  match a, b with
  | ABSENT, ABSENT | IDENTICAL, IDENTICAL
  | MODIFIED, MODIFIED | MODIFIED_AGAIN, MODIFIED_AGAIN => true
  | _, _ => false
  end.
End StageStatus.

(** One row of the status matrix: [[filename, head, workTree, stage]]. *)
Definition StatusMatrixEntry : Type :=
  (string * HeadStatus.t * WorkdirStatus.t * StageStatus.t)%type.

Definition StatusMatrix : Type := list StatusMatrixEntry.

Definition entry_filename (e : StatusMatrixEntry) : string :=
  let '(filename, _, _, _) := e in filename.

(** [{ filename, isDeleted }] *)
Record FileChange : Type := mkFileChange {
  filename : string;
  isDeleted : bool
}.

(** [GitStatus = { staged: FileChange[], unstaged: FileChange[] }] *)
Record GitStatus : Type := mkGitStatus {
  staged : list FileChange;
  unstaged : list FileChange
}.

(* ================================================================== *)
(** * The status classifier (the body of [fetchGitStatus]) *)
(* ================================================================== *)

(** [Array.prototype.push] on the two arrays of the object under
    construction. *)
Definition push_staged (c : FileChange) (g : GitStatus) : GitStatus :=
  {| staged := staged g ++ [c]; unstaged := unstaged g |}.

Definition push_unstaged (c : FileChange) (g : GitStatus) : GitStatus :=
  {| staged := staged g; unstaged := unstaged g ++ [c] |}.

(** A JavaScript [if] without [else]. *)
Definition when (b : bool) (f : GitStatus -> GitStatus) (g : GitStatus)
  : GitStatus :=
  if b then f g else g.

(** The callback given to [statusMatrix.forEach]: an [if / else if] chain
    on [stage], and inside each arm one or two independent [if]s. *)
Definition visit (status : StatusMatrixEntry) (gitStatus : GitStatus)
  : GitStatus :=
  let '(filename, head, workTree, stage) := status in
  if StageStatus.eqb stage StageStatus.ABSENT then
    let g1 :=
      when (WorkdirStatus.eqb workTree WorkdirStatus.MODIFIED
            && HeadStatus.eqb head HeadStatus.ABSENT)
           (push_unstaged (mkFileChange filename false)) gitStatus in
    when (WorkdirStatus.eqb workTree WorkdirStatus.ABSENT
          && HeadStatus.eqb head HeadStatus.PRESENT)
         (push_staged (mkFileChange filename true)) g1
  else if StageStatus.eqb stage StageStatus.IDENTICAL then
    let g1 :=
      when (WorkdirStatus.eqb workTree WorkdirStatus.ABSENT)
           (push_unstaged (mkFileChange filename true)) gitStatus in
    when (WorkdirStatus.eqb workTree WorkdirStatus.MODIFIED)
         (push_unstaged (mkFileChange filename false)) g1
  else if StageStatus.eqb stage StageStatus.MODIFIED then
    when (WorkdirStatus.eqb workTree WorkdirStatus.MODIFIED)
         (push_staged (mkFileChange filename false)) gitStatus
  else if StageStatus.eqb stage StageStatus.MODIFIED_AGAIN then
    when (WorkdirStatus.eqb workTree WorkdirStatus.MODIFIED)
         (fun g => push_staged (mkFileChange filename false)
                     (push_unstaged (mkFileChange filename false) g))
         gitStatus
  else gitStatus.

(** The objects the loop works on: the array it walks and the object it
    fills.  [forEach] reads the length once and then the live array, one
    index after the other, so the array is part of the loop's state. *)
Record LoopHeap : Type := mkLoopHeap {
  heap_matrix : StatusMatrix;
  heap_gitStatus : GitStatus
}.

(** One call of the callback: it pushes on [gitStatus] and assigns nothing
    in [statusMatrix]. *)
Definition callback (status : StatusMatrixEntry) (h : LoopHeap) : LoopHeap :=
  {| heap_matrix := heap_matrix h;
     heap_gitStatus := visit status (heap_gitStatus h) |}.

(** [forEach] from index [k], with [n] indices left to visit. *)
Fixpoint forEach_from (n k : nat) (h : LoopHeap) : LoopHeap :=
  match n with
  | O => h
  | S n' =>
      match nth_error (heap_matrix h) k with
      | Some status => forEach_from n' (S k) (callback status h)
      | None => forEach_from n' (S k) h
      end
  end.

Definition forEach (h : LoopHeap) : LoopHeap :=
  forEach_from (List.length (heap_matrix h)) 0 h.

(** [const gitStatus = { staged: [], unstaged: [] }] *)
Definition empty_gitStatus : GitStatus := {| staged := []; unstaged := [] |}.

(** The heap when the loop is over. *)
Definition classify_heap (statusMatrix : StatusMatrix) : LoopHeap :=
  forEach {| heap_matrix := statusMatrix; heap_gitStatus := empty_gitStatus |}.

(** The conversion of lines 33-71: a fresh object, filled by the loop. *)
Definition classify (statusMatrix : StatusMatrix) : GitStatus :=
  heap_gitStatus (classify_heap statusMatrix).

(* ------------------------------------------------------------------ *)
(** ** The case table of the specification *)
(* ------------------------------------------------------------------ *)

(** What the table says of one combination: the [isDeleted] flag of the
    entry it puts in the staged list, if any, and of the one it puts in the
    unstaged list, if any.  Rows are in the order of the table; [_] is the
    table's "any". *)
Definition table_row (head : HeadStatus.t) (workTree : WorkdirStatus.t)
  (stage : StageStatus.t) : option bool * option bool :=
  match head, workTree, stage with
  | HeadStatus.ABSENT, WorkdirStatus.MODIFIED, StageStatus.ABSENT =>
      (None, Some false)
  | HeadStatus.PRESENT, WorkdirStatus.ABSENT, StageStatus.ABSENT =>
      (Some true, None)
  | _, WorkdirStatus.ABSENT, StageStatus.IDENTICAL => (None, Some true)
  | _, WorkdirStatus.MODIFIED, StageStatus.IDENTICAL => (None, Some false)
  | _, WorkdirStatus.MODIFIED, StageStatus.MODIFIED => (Some false, None)
  | _, WorkdirStatus.MODIFIED, StageStatus.MODIFIED_AGAIN =>
      (Some false, Some false)
  | _, _, _ => (None, None)
  end.

Definition change_of (name : string) (o : option bool) : list FileChange :=
  match o with
  | Some d => [mkFileChange name d]
  | None => []
  end.

Definition table_staged (e : StatusMatrixEntry) : list FileChange :=
  let '(name, head, workTree, stage) := e in
  change_of name (fst (table_row head workTree stage)).

Definition table_unstaged (e : StatusMatrixEntry) : list FileChange :=
  let '(name, head, workTree, stage) := e in
  change_of name (snd (table_row head workTree stage)).

(** The classifier as the specification words it: each input row
    contributes what its table row says, in input order. *)
Definition classify_table (m : StatusMatrix) : GitStatus :=
  {| staged := flat_map table_staged m;
     unstaged := flat_map table_unstaged m |}.

(** [Subseq l1 l2]: [l1] is [l2] with some elements left out, the others in
    the same relative order. *)
Inductive Subseq {A : Type} : list A -> list A -> Prop :=
| Subseq_nil : Subseq [] []
| Subseq_skip : forall x l1 l2, Subseq l1 l2 -> Subseq l1 (x :: l2)
| Subseq_keep : forall x l1 l2, Subseq l1 l2 -> Subseq (x :: l1) (x :: l2).

(* ================================================================== *)
(** * The external Git capability and the component state *)
(* ================================================================== *)

(** A request of the component to [window.api.git], with the arguments the
    call site gives it. *)
Inductive call : Type :=
| git_status
| git_add (filepath : string)
| git_unstage (filepath : string)
| git_commit (message : string)
| git_push
| git_pull.

(** How a promise settles.  The rejection value only reaches
    [console.error]. *)
Inductive result (A : Type) : Type :=
| Resolved (value : A)
| Rejected (error : string).

Arguments Resolved {A} value.
Arguments Rejected {A} error.

(** The capability behind the bridge.  Its answer to a request may depend
    on every request made before it (the repository changes under them). *)
Record Api : Type := mkApi {
  status : list call -> result StatusMatrix;
  add : string -> list call -> result unit;
  unstage : string -> list call -> result unit;
  commit : string -> list call -> result string;
  push : list call -> result unit;
  pull : list call -> result unit
}.

(** The [useState] cells of [GitControls]. *)
Record Controls : Type := mkControls {
  commitMessage : string;
  isLoading : bool;
  gitStatus : option GitStatus;
  statusMessage : string;
  isExpanded : bool
}.

(** The component together with its surroundings: the state the setters
    have produced, the requests sent so far, and the answers to the status
    requests of [fetchGitStatus()] calls nobody awaits. *)
Record Sys : Type := mkSys {
  ui : Controls;
  issued : list call;
  inflight : list (result StatusMatrix)
}.

(** What a JavaScript value passed over the bridge can be here. *)
Inductive jsval : Type :=
| JsString (s : string)
| JsAuthor (name email : string)
| JsUndefined.

(** The argument list of a request, as written at its call site. *)
Definition call_args (c : call) : list jsval :=
  match c with
  | git_status | git_push | git_pull => []
  | git_add filepath | git_unstage filepath => [JsString filepath]
  | git_commit message => [JsString message]
  end.

(** [commit: (repoPath, message, author) => ipcRenderer.invoke('git:commit',
    repoPath, message, author)] of the preload script: the three positional
    parameters are forwarded, a parameter without argument is [undefined]. *)
Definition preload_commit (args : list jsval) : list jsval :=
  [nth 0 args JsUndefined; nth 1 args JsUndefined; nth 2 args JsUndefined].

(* ------------------------------------------------------------------ *)
(** ** Strings *)
(* ------------------------------------------------------------------ *)

(** [!s] on a string. *)
Definition is_empty (s : string) : bool :=
  match s with
  | EmptyString => true
  | String _ _ => false
  end.

(** [s.slice(b, e)] for [0 <= b <= e]. *)
Definition slice (b e : nat) (s : string) : string := substring b (e - b) s.

(** The last element of [path.split('/')]: [cur] is the segment read since
    the last separator. *)
Fixpoint last_segment (path cur : string) : string :=
  match path with
  | EmptyString => cur
  | String c rest =>
      if Ascii.eqb c "/"%char then last_segment rest EmptyString
      else last_segment rest (cur ++ String c EmptyString)
  end.

(** [path.split('/').pop() || path] *)
Definition getFileName (path : string) : string :=
  let last := last_segment path EmptyString in
  if is_empty last then path else last.

(** The messages shown to the user (UTF-8 bytes of the source literals). *)
Module Msg.
Definition status_failed := "Gitステータスの取得に失敗しました".
Definition committed := "変更をコミットしました: ".
Definition commit_failed := "コミットに失敗しました".
Definition pushed := "変更をGitHubにプッシュしました".
Definition push_failed := "プッシュに失敗しました".
Definition pulled := "GitHubから最新の変更を取得しました".
Definition pull_failed := "プルに失敗しました".
Definition staged_all := "すべての変更をステージングしました".
Definition stage_all_failed := "変更のステージングに失敗しました".
Definition staged_one := " をステージングしました".
Definition stage_one_failed := " のステージングに失敗しました".
Definition unstaged_one := " のステージングを取り消しました".
Definition unstage_one_failed := " のステージング取り消しに失敗しました".
Definition unstaged_all := "すべてのステージングを取り消しました".
Definition unstage_all_failed := "ステージング取り消しに失敗しました".
End Msg.

(* ------------------------------------------------------------------ *)
(** ** Asynchronous code: state, and exceptions of rejected promises *)
(* ------------------------------------------------------------------ *)

Inductive completion (A : Type) : Type :=
| Normal (value : A)
| Throw (error : string).

Arguments Normal {A} value.
Arguments Throw {A} error.

Definition Async (A : Type) : Type := Sys -> completion A * Sys.

Definition ret {A : Type} (a : A) : Async A := fun s => (Normal a, s).

Definition bind {A B : Type} (m : Async A) (k : A -> Async B) : Async B :=
  fun s =>
    match m s with
    | (Normal a, s1) => k a s1
    | (Throw e, s1) => (Throw e, s1)
    end.

Declare Scope async_scope.
Delimit Scope async_scope with async.
Notation "x <- m ;; k" := (bind m (fun x => k))
  (at level 61, m at next level, right associativity) : async_scope.
Notation "m ;; k" := (bind m (fun _ => k))
  (at level 61, right associativity) : async_scope.
Local Open Scope async_scope.

(** [try { body } catch (error) { handler }] *)
Definition try_catch (body : Async unit) (handler : string -> Async unit)
  : Async unit :=
  fun s =>
    match body s with
    | (Normal _, s1) => (Normal tt, s1)
    | (Throw e, s1) => handler e s1
    end.

(** [try { body } catch (error) { handler } finally { cleanup }]: the
    cleanup runs on every path, and its own exception wins. *)
Definition try_catch_finally (body : Async unit)
  (handler : string -> Async unit) (cleanup : Async unit) : Async unit :=
  fun s =>
    let '(c, s1) := try_catch body handler s in
    match cleanup s1 with
    | (Normal _, s2) => (c, s2)
    | (Throw e, s2) => (Throw e, s2)
    end.

(** [for (const x of l) { body }] *)
Fixpoint for_of {A : Type} (l : list A) (body : A -> Async unit)
  : Async unit :=
  match l with
  | [] => ret tt
  | x :: rest => body x ;; for_of rest body
  end.

(** The state setters. *)
Definition set_ui (f : Controls -> Controls) : Async unit :=
  fun s => (Normal tt,
            {| ui := f (ui s); issued := issued s; inflight := inflight s |}).

Definition setCommitMessage (v : string) : Async unit :=
  set_ui (fun u => {| commitMessage := v; isLoading := isLoading u;
                      gitStatus := gitStatus u;
                      statusMessage := statusMessage u;
                      isExpanded := isExpanded u |}).

Definition setIsLoading (v : bool) : Async unit :=
  set_ui (fun u => {| commitMessage := commitMessage u; isLoading := v;
                      gitStatus := gitStatus u;
                      statusMessage := statusMessage u;
                      isExpanded := isExpanded u |}).

Definition setGitStatus (v : GitStatus) : Async unit :=
  set_ui (fun u => {| commitMessage := commitMessage u;
                      isLoading := isLoading u;
                      gitStatus := Some v;
                      statusMessage := statusMessage u;
                      isExpanded := isExpanded u |}).

Definition setStatusMessage (v : string) : Async unit :=
  set_ui (fun u => {| commitMessage := commitMessage u;
                      isLoading := isLoading u;
                      gitStatus := gitStatus u;
                      statusMessage := v;
                      isExpanded := isExpanded u |}).

(** Sending request [c]: it joins the requests sent, and its answer is the
    capability's for the requests sent before it. *)
Definition request {A : Type} (c : call) (answer : list call -> result A)
  : Async (result A) :=
  fun s => (Normal (answer (issued s)),
            {| ui := ui s; issued := issued s ++ [c];
               inflight := inflight s |}).

(** [await] on a settled promise: its value, or its rejection thrown. *)
Definition awaited {A : Type} (r : result A) : Async A :=
  fun s =>
    match r with
    | Resolved a => (Normal a, s)
    | Rejected e => (Throw e, s)
    end.

(** [await window.api.git.f(...)] *)
Definition await {A : Type} (c : call) (answer : list call -> result A)
  : Async A :=
  r <- request c answer ;; awaited r.

(** The body of the two [for ... of] loops: one awaited request for the
    file, [mk] being the request and [answer] the capability's method. *)
Definition await_each (answer : string -> list call -> result unit)
  (mk : string -> call) (file : FileChange) : Async unit :=
  await (mk (filename file)) (answer (filename file)).

(* ================================================================== *)
(** * The handlers of [GitControls] *)
(* ================================================================== *)

Section Handlers.

Variable api : Api.

(** What [fetchGitStatus] does once the status request has settled with
    [answer]: the rest of its [try] block, or its [catch]. *)
Definition fetchGitStatus_resume (answer : result StatusMatrix)
  : Async unit :=
  try_catch
    (statusMatrix <- awaited answer ;;
     setGitStatus (classify statusMatrix))
    (fun error => setStatusMessage Msg.status_failed).

(** [fetchGitStatus], run to its end (lines 27-78). *)
Definition fetchGitStatus : Async unit :=
  try_catch
    (statusMatrix <- await git_status (status api) ;;
     setGitStatus (classify statusMatrix))
    (fun error => setStatusMessage Msg.status_failed).

(** [fetchGitStatus()] as the handlers call it, without [await]: the
    function runs up to its first [await], which sends the status
    request; the caller goes on, and the rest of [fetchGitStatus] runs
    when the answer arrives, after the caller has finished. *)
Definition fetchGitStatus_call : Async unit :=
  fun s => (Normal tt,
            {| ui := ui s; issued := issued s ++ [git_status];
               inflight := inflight s ++ [status api (issued s)] |}).

(** The answers in flight arrive, in the order of their requests. *)
Definition settle (s : Sys) : Sys :=
  fold_left (fun s1 answer => snd (fetchGitStatus_resume answer s1))
            (inflight s)
            {| ui := ui s; issued := issued s; inflight := [] |}.

(** [commitMessageDisabled] (lines 21-24), the [disabled] attribute of
    the message input. *)
Definition commitMessageDisabled (rendered : Controls) : bool :=
  match gitStatus rendered with
  | None => true
  | Some g => Nat.eqb (List.length (staged g)) 0
  end.

(** Each handler is a closure of one render: [rendered] holds the values
    of the state cells it reads, whatever the setters do meanwhile. *)

(** [handleCommit] (lines 87-104) *)
Definition handleCommit (rendered : Controls) : Async unit :=
  if is_empty (commitMessage rendered) then ret tt
  else
    setIsLoading true ;;
    try_catch_finally
      (sha <- await (git_commit (commitMessage rendered))
                    (commit api (commitMessage rendered)) ;;
       setStatusMessage (Msg.committed ++ slice 0 7 sha) ;;
       setCommitMessage EmptyString ;;
       fetchGitStatus_call)
      (fun error => setStatusMessage Msg.commit_failed)
      (setIsLoading false).

(** [handlePush] (lines 107-119) *)
Definition handlePush (rendered : Controls) : Async unit :=
  setIsLoading true ;;
  try_catch_finally
    (await git_push (push api) ;;
     setStatusMessage Msg.pushed)
    (fun error => setStatusMessage Msg.push_failed)
    (setIsLoading false).

(** [handlePull] (lines 122-135) *)
Definition handlePull (rendered : Controls) : Async unit :=
  setIsLoading true ;;
  try_catch_finally
    (await git_pull (pull api) ;;
     setStatusMessage Msg.pulled ;;
     fetchGitStatus_call)
    (fun error => setStatusMessage Msg.pull_failed)
    (setIsLoading false).

(** [!gitStatus || gitStatus.<list>.length === 0] *)
Definition nothing_in (list_of : GitStatus -> list FileChange)
  (rendered : Controls) : bool :=
  match gitStatus rendered with
  | None => true
  | Some g => Nat.eqb (List.length (list_of g)) 0
  end.

(** The array a [for ... of] walks once the guard has let it through. *)
Definition files_in (list_of : GitStatus -> list FileChange)
  (rendered : Controls) : list FileChange :=
  match gitStatus rendered with
  | None => []
  | Some g => list_of g
  end.

(** [handleStageAll] (lines 138-158) *)
Definition handleStageAll (rendered : Controls) : Async unit :=
  if nothing_in unstaged rendered then ret tt
  else
    try_catch_finally
      (setIsLoading true ;;
       for_of (files_in unstaged rendered)
              (fun file => await (git_add (filename file))
                                 (add api (filename file))) ;;
       setStatusMessage Msg.staged_all ;;
       fetchGitStatus_call)
      (fun error => setStatusMessage Msg.stage_all_failed)
      (setIsLoading false).

(** [handleStageFile] (lines 167-182) *)
Definition handleStageFile (filename : string) (rendered : Controls)
  : Async unit :=
  try_catch_finally
    (setIsLoading true ;;
     await (git_add filename) (add api filename) ;;
     setStatusMessage (getFileName filename ++ Msg.staged_one) ;;
     fetchGitStatus_call)
    (fun error =>
       setStatusMessage (getFileName filename ++ Msg.stage_one_failed))
    (setIsLoading false).

(** [handleUnstageFile] (lines 185-200) *)
Definition handleUnstageFile (filename : string) (rendered : Controls)
  : Async unit :=
  try_catch_finally
    (setIsLoading true ;;
     await (git_unstage filename) (unstage api filename) ;;
     setStatusMessage (getFileName filename ++ Msg.unstaged_one) ;;
     fetchGitStatus_call)
    (fun error =>
       setStatusMessage (getFileName filename ++ Msg.unstage_one_failed))
    (setIsLoading false).

(** [handleUnstageAll] (lines 203-223) *)
Definition handleUnstageAll (rendered : Controls) : Async unit :=
  if nothing_in staged rendered then ret tt
  else
    try_catch_finally
      (setIsLoading true ;;
       for_of (files_in staged rendered)
              (fun file => await (git_unstage (filename file))
                                 (unstage api (filename file))) ;;
       setStatusMessage Msg.unstaged_all ;;
       fetchGitStatus_call)
      (fun error => setStatusMessage Msg.unstage_all_failed)
      (setIsLoading false).

(** [handleStageAll] and [handleUnstageAll] are one handler, up to the
    list walked, the request sent and the two messages. *)
Definition all_handler (list_of : GitStatus -> list FileChange)
  (mk : string -> call) (answer : string -> list call -> result unit)
  (done failed : string) (rendered : Controls) : Async unit :=
  if nothing_in list_of rendered then ret tt
  else
    try_catch_finally
      (setIsLoading true ;;
       for_of (files_in list_of rendered)
              (fun file => await (mk (filename file))
                                 (answer (filename file))) ;;
       setStatusMessage done ;;
       fetchGitStatus_call)
      (fun error => setStatusMessage failed)
      (setIsLoading false).

(** The seven mutating operations of the controller. *)
Inductive operation : Type :=
| StageFile (filename : string)
| UnstageFile (filename : string)
| StageAll
| UnstageAll
| Commit
| Push
| Pull.

Definition handler (op : operation) : Controls -> Async unit :=
  match op with
  | StageFile f => handleStageFile f
  | UnstageFile f => handleUnstageFile f
  | StageAll => handleStageAll
  | UnstageAll => handleUnstageAll
  | Commit => handleCommit
  | Push => handlePush
  | Pull => handlePull
  end.

(** A handler invoked on the state [u] it was rendered with, nothing else
    being under way. *)
Definition start (u : Controls) : Sys :=
  {| ui := u; issued := []; inflight := [] |}.

Definition invoke (h : Controls -> Async unit) (u : Controls)
  : completion unit * Sys :=
  h u (start u).

(** The system when the handler has returned. *)
Definition after (h : Controls -> Async unit) (u : Controls) : Sys :=
  snd (invoke h u).

(** The system when, after that, the status answer has arrived too. *)
Definition settled (h : Controls -> Async unit) (u : Controls) : Sys :=
  settle (after h u).

End Handlers.

(* ================================================================== *)
(** * Vocabulary of the properties *)
(* ================================================================== *)

(** The settings record of [AppSettings.tsx], as [getSettings] returns
    it. *)
Record Author : Type := mkAuthor {
  author_name : string;
  author_email : string
}.

Record AppSettings : Type := mkAppSettings {
  rootDirectory_path : string;
  git_remoteUrl : string;
  git_token : string;
  git_author : Author
}.

Definition is_git_add (c : call) : bool :=
  match c with git_add _ => true | _ => false end.

Definition is_git_commit (c : call) : bool :=
  match c with git_commit _ => true | _ => false end.

(** The requests a loop over [files] sends when none is rejected. *)
Definition calls_for (mk : string -> call) (files : list FileChange)
  : list call :=
  map (fun file => mk (filename file)) files.

(** Every request of the loop over [files] is resolved, each one being
    asked after [sent] and the requests of the files before it. *)
Fixpoint all_resolved (answer : string -> list call -> result unit)
  (mk : string -> call) (sent : list call) (files : list FileChange)
  : bool :=
  match files with
  | [] => true
  | file :: rest =>
      match answer (filename file) sent with
      | Resolved _ =>
          all_resolved answer mk (sent ++ [mk (filename file)]) rest
      | Rejected _ => false
      end
  end.

(** [u] with the two cells a handler with [try/catch/finally] always
    leaves behind. *)
Definition idle_with (message : string) (u : Controls) : Controls :=
  {| commitMessage := commitMessage u; isLoading := false;
     gitStatus := gitStatus u; statusMessage := message;
     isExpanded := isExpanded u |}.

(** The reading of "one stage call per entry of the unstaged list, in list
    order" on a run of [handleStageAll]. *)
Definition one_stage_call_per_entry (api : Api) (u : Controls) : Prop :=
  filter is_git_add (issued (after (handleStageAll api) u))
  = calls_for git_add (files_in unstaged u).

(** The reading of "the commit operation passes both the message and the
    author of the persisted settings" on a run of [handleCommit]. *)
Definition commit_passes_message_and_author (api : Api)
  (settings : AppSettings) (u : Controls) : Prop :=
  exists c,
    In c (issued (after (handleCommit api) u))
    /\ In (JsString (commitMessage u)) (call_args c)
    /\ In (JsAuthor (author_name (git_author settings))
                    (author_email (git_author settings))) (call_args c).

(** The reading of "with an empty message or nothing staged, commit makes
    no external call and changes no state" on a run of [handleCommit]. *)
Definition commit_guarded_by_message_and_staged (api : Api) (u : Controls)
  : Prop :=
  commitMessage u = EmptyString \/ nothing_in staged u = true ->
  invoke (handleCommit api) u = (Normal tt, start u).

(* ------------------------------------------------------------------ *)
(** ** Sample surroundings *)
(* ------------------------------------------------------------------ *)

Module Sample.

Definition sha := "9fceb02d0ae598e95dc970b74767f19372d61af8".

(** A capability that grants every request; the repository has one
    untracked file. *)
Definition granting : Api :=
  {| status := fun _ =>
       Resolved [("n.md", HeadStatus.ABSENT, WorkdirStatus.MODIFIED,
                  StageStatus.ABSENT)];
     add := fun _ _ => Resolved tt;
     unstage := fun _ _ => Resolved tt;
     commit := fun _ _ => Resolved sha;
     push := fun _ => Resolved tt;
     pull := fun _ => Resolved tt |}.

(** A capability that rejects every request. *)
Definition rejecting : Api :=
  {| status := fun _ => Rejected "status";
     add := fun _ _ => Rejected "add";
     unstage := fun _ _ => Rejected "unstage";
     commit := fun _ _ => Rejected "commit";
     push := fun _ => Rejected "push";
     pull := fun _ => Rejected "pull" |}.

(** A capability that grants the first request and rejects the others. *)
Definition granting_once : Api :=
  let once {A} (a : A) (sent : list call) : result A :=
    match sent with
    | [] => Resolved a
    | _ :: _ => Rejected "busy"
    end in
  {| status := once [];
     add := fun _ => once tt;
     unstage := fun _ => once tt;
     commit := fun _ => once sha;
     push := once tt;
     pull := once tt |}.

Definition x := mkFileChange "x" false.
Definition y := mkFileChange "y" true.
Definition z := mkFileChange "notes/z.md" false.

(** [unstaged = [{x,false},{y,true}]], nothing staged, a message typed
    earlier. *)
Definition two_unstaged : Controls :=
  {| commitMessage := "fix typo"; isLoading := false;
     gitStatus := Some {| staged := []; unstaged := [x; y] |};
     statusMessage := EmptyString; isExpanded := true |}.

(** Three staged files, no message. *)
Definition three_staged : Controls :=
  {| commitMessage := EmptyString; isLoading := false;
     gitStatus := Some {| staged := [x; y; z]; unstaged := [] |};
     statusMessage := EmptyString; isExpanded := true |}.

(** One staged file and a message. *)
Definition ready_to_commit : Controls :=
  {| commitMessage := "fix typo"; isLoading := false;
     gitStatus := Some {| staged := [z]; unstaged := [] |};
     statusMessage := EmptyString; isExpanded := true |}.

Definition settings : AppSettings :=
  {| rootDirectory_path := "/home/ada/notes";
     git_remoteUrl := "https://github.com/ada/notes.git";
     git_token := "ghp_token";
     git_author := {| author_name := "Ada";
                      author_email := "ada@example.com" |} |}.

End Sample.

(* ================================================================== *)
(** * The rest of [GitControls]: refresh button and rendering *)
(* ================================================================== *)

Definition status_updated_message := "Gitステータスを更新しました".

(** [handleRefreshStatus] (lines 161-164): the status request is sent, and
    the message is set at once, before the answer is there. *)
Definition handleRefreshStatus (api : Api) (rendered : Controls)
  : Async unit :=
  fetchGitStatus_call api ;;
  setStatusMessage status_updated_message.

(** The [<button>] elements of the component. *)
Inductive button : Type :=
| RefreshButton
| StageAllButton
| UnstageAllButton
| UnstageButton (filename : string)
| StageButton (filename : string)
| CommitButton
| PushButton
| PullButton.

(** [cond && <element>] in JSX. *)
Definition shown {A : Type} (cond : bool) (elements : list A) : list A :=
  if cond then elements else [].

(** [gitStatus && gitStatus.<list>.length > 0] *)
Definition some_in (list_of : GitStatus -> list FileChange)
  (rendered : Controls) : bool :=
  match gitStatus rendered with
  | None => false
  | Some g => Nat.ltb 0 (List.length (list_of g))
  end.

(** The buttons of one render (lines 225-390), in document order, each
    with its [disabled] attribute.  Everything is inside
    [isExpanded && (...)]. *)
Definition buttons (rendered : Controls) : list (button * bool) :=
  shown (isExpanded rendered)
    ([(RefreshButton, false)]
     ++ shown (some_in unstaged rendered)
          [(StageAllButton, isLoading rendered)]
     ++ shown (some_in staged rendered)
          [(UnstageAllButton, isLoading rendered)]
     ++ match gitStatus rendered with
        | None => []
        | Some g =>
            shown (Nat.ltb 0 (List.length (staged g)))
              (map (fun file => (UnstageButton (filename file),
                                 isLoading rendered)) (staged g))
            ++ shown (Nat.ltb 0 (List.length (unstaged g)))
                 (map (fun file => (StageButton (filename file),
                                    isLoading rendered)) (unstaged g))
        end
     ++ [(CommitButton, is_empty (commitMessage rendered));
         (PushButton, isLoading rendered);
         (PullButton, isLoading rendered)]).

(** The [onClick] of each button. *)
Definition onClick (api : Api) (b : button) : Controls -> Async unit :=
  match b with
  | RefreshButton => handleRefreshStatus api
  | StageAllButton => handleStageAll api
  | UnstageAllButton => handleUnstageAll api
  | UnstageButton f => handleUnstageFile api f
  | StageButton f => handleStageFile api f
  | CommitButton => handleCommit api
  | PushButton => handlePush api
  | PullButton => handlePull api
  end.

(** A button the user can press: in the document and not disabled. *)
Definition clickable (rendered : Controls) (b : button) : Prop :=
  In (b, false) (buttons rendered).

(** ['/'] occurs in [s]. *)
Fixpoint contains_slash (s : string) : bool :=
  match s with
  | EmptyString => false
  | String c rest => Ascii.eqb c "/"%char || contains_slash rest
  end.

(** [u] with another status, and [u] with another message. *)
Definition with_gitStatus (g : GitStatus) (u : Controls) : Controls :=
  {| commitMessage := commitMessage u; isLoading := isLoading u;
     gitStatus := Some g; statusMessage := statusMessage u;
     isExpanded := isExpanded u |}.

Definition with_statusMessage (message : string) (u : Controls)
  : Controls :=
  {| commitMessage := commitMessage u; isLoading := isLoading u;
     gitStatus := gitStatus u; statusMessage := message;
     isExpanded := isExpanded u |}.

(** What the answer to a status request does to the component. *)
Definition refreshed (answer : result StatusMatrix) (u : Controls)
  : Controls :=
  match answer with
  | Resolved statusMatrix => with_gitStatus (classify statusMatrix) u
  | Rejected _ => with_statusMessage Msg.status_failed u
  end.

(* ================================================================== *)
(** * The application shell ([app.tsx]) and the settings panel
      ([AppSettings.tsx]) *)
(* ================================================================== *)

(** The requests of the shell and of the panel to [window.api]. *)
Inductive shell_call : Type :=
| fs_readFile (filePath : string)
| fs_writeFile (filePath content : string)
| app_getSettings
| app_setSettings (settings : AppSettings)
| dialog_selectDirectory.

(** The capabilities behind them.  [getSettings] resolves to [null] when
    nothing was saved, [selectDirectory] to [null] when the dialog is
    dismissed. *)
Record ShellApi : Type := mkShellApi {
  readFile : string -> list shell_call -> result string;
  writeFile : string -> string -> list shell_call -> result unit;
  getSettings : list shell_call -> result (option AppSettings);
  setSettings : AppSettings -> list shell_call -> result unit;
  selectDirectory : list shell_call -> result (option string)
}.

(** The [useState] cells of [App]. *)
Record AppState : Type := mkAppState {
  selectedFile : option string;
  fileContent : string;
  isSettingsOpen : bool;
  hasGitSettings : bool
}.

(** [{ type: 'success' | 'error', text }] *)
Inductive SaveMessage : Type :=
| SaveSuccess (text : string)
| SaveError (text : string).

(** The [useState] cells of [AppSettings]. *)
Record PanelState : Type := mkPanelState {
  settings : AppSettings;
  isSaving : bool;
  saveMessage : option SaveMessage
}.

(** Both components and their surroundings: the requests sent so far and
    the answers to the settings requests of [checkGitSettings()] calls
    nobody awaits. *)
Record Shell : Type := mkShell {
  shell_app : AppState;
  shell_panel : PanelState;
  sent : list shell_call;
  settings_inflight : list (result (option AppSettings))
}.

Definition settings_saved_text := "設定を保存しました".
Definition settings_save_failed_text := "設定の保存に失敗しました".

(** Asynchronous code over any state [S]: state passing, and the
    exceptions of rejected promises. *)
Definition Eff (S A : Type) : Type := S -> completion A * S.

Definition eff_ret {S A : Type} (a : A) : Eff S A := fun s => (Normal a, s).

Definition eff_bind {S A B : Type} (m : Eff S A) (k : A -> Eff S B)
  : Eff S B :=
  fun s =>
    match m s with
    | (Normal a, s1) => k a s1
    | (Throw e, s1) => (Throw e, s1)
    end.

Declare Scope eff_scope.
Delimit Scope eff_scope with eff.
Notation "x <- m ;; k" := (eff_bind m (fun x => k))
  (at level 61, m at next level, right associativity) : eff_scope.
Notation "m ;; k" := (eff_bind m (fun _ => k))
  (at level 61, right associativity) : eff_scope.

(** [throw error] *)
Definition eff_throw {S A : Type} (error : string) : Eff S A :=
  fun s => (Throw error, s).

(** [try { body } catch (error) { handler }] *)
Definition eff_try_catch {S : Type} (body : Eff S unit)
  (handler : string -> Eff S unit) : Eff S unit :=
  fun s =>
    match body s with
    | (Normal _, s1) => (Normal tt, s1)
    | (Throw e, s1) => handler e s1
    end.

(** [try { body } catch (error) { handler } finally { cleanup }] *)
Definition eff_try_catch_finally {S : Type} (body : Eff S unit)
  (handler : string -> Eff S unit) (cleanup : Eff S unit) : Eff S unit :=
  fun s =>
    let '(c, s1) := eff_try_catch body handler s in
    match cleanup s1 with
    | (Normal _, s2) => (c, s2)
    | (Throw e, s2) => (Throw e, s2)
    end.

(** [for (const x of l) { body }] *)
Fixpoint eff_for_of {S A : Type} (l : list A) (body : A -> Eff S unit)
  : Eff S unit :=
  match l with
  | [] => eff_ret tt
  | x :: rest => (body x ;; eff_for_of rest body)%eff
  end.

(** [await] on a settled promise. *)
Definition eff_awaited {S A : Type} (r : result A) : Eff S A :=
  fun s =>
    match r with
    | Resolved a => (Normal a, s)
    | Rejected e => (Throw e, s)
    end.

(** Asynchronous code of the shell and the panel. *)
Definition ShellAsync (A : Type) : Type := Eff Shell A.

Definition set_app (f : AppState -> AppState) : ShellAsync unit :=
  fun s => (Normal tt,
            {| shell_app := f (shell_app s); shell_panel := shell_panel s;
               sent := sent s;
               settings_inflight := settings_inflight s |}).

Definition set_panel (f : PanelState -> PanelState) : ShellAsync unit :=
  fun s => (Normal tt,
            {| shell_app := shell_app s; shell_panel := f (shell_panel s);
               sent := sent s;
               settings_inflight := settings_inflight s |}).

Definition setSelectedFile (v : string) : ShellAsync unit :=
  set_app (fun a => {| selectedFile := Some v;
                       fileContent := fileContent a;
                       isSettingsOpen := isSettingsOpen a;
                       hasGitSettings := hasGitSettings a |}).

Definition setFileContent (v : string) : ShellAsync unit :=
  set_app (fun a => {| selectedFile := selectedFile a;
                       fileContent := v;
                       isSettingsOpen := isSettingsOpen a;
                       hasGitSettings := hasGitSettings a |}).

Definition setIsSettingsOpen (v : bool) : ShellAsync unit :=
  set_app (fun a => {| selectedFile := selectedFile a;
                       fileContent := fileContent a;
                       isSettingsOpen := v;
                       hasGitSettings := hasGitSettings a |}).

Definition setHasGitSettings (v : bool) : ShellAsync unit :=
  set_app (fun a => {| selectedFile := selectedFile a;
                       fileContent := fileContent a;
                       isSettingsOpen := isSettingsOpen a;
                       hasGitSettings := v |}).

(** The panel's [setSettings], given the function of the previous value. *)
Definition setPanelSettings (f : AppSettings -> AppSettings)
  : ShellAsync unit :=
  set_panel (fun p => {| settings := f (settings p);
                         isSaving := isSaving p;
                         saveMessage := saveMessage p |}).

Definition setIsSaving (v : bool) : ShellAsync unit :=
  set_panel (fun p => {| settings := settings p; isSaving := v;
                         saveMessage := saveMessage p |}).

Definition setSaveMessage (v : option SaveMessage) : ShellAsync unit :=
  set_panel (fun p => {| settings := settings p; isSaving := isSaving p;
                         saveMessage := v |}).

Definition shell_request {A : Type} (c : shell_call)
  (answer : list shell_call -> result A) : ShellAsync (result A) :=
  fun s => (Normal (answer (sent s)),
            {| shell_app := shell_app s; shell_panel := shell_panel s;
               sent := sent s ++ [c];
               settings_inflight := settings_inflight s |}).

(** [await window.api....(...)] *)
Definition shell_await {A : Type} (c : shell_call)
  (answer : list shell_call -> result A) : ShellAsync A :=
  (r <- shell_request c answer ;; eff_awaited r)%eff.

(** [!!settings?.rootDirectory?.path] *)
Definition has_root_path (saved : option AppSettings) : bool :=
  match saved with
  | None => false
  | Some s => negb (is_empty (rootDirectory_path s))
  end.

(** A string or [null] used as a condition: the string when it is
    truthy. *)
Definition truthy (v : option string) : option string :=
  match v with
  | None => None
  | Some s => if is_empty s then None else Some s
  end.

Section Shell.

Variable api : ShellApi.

(** [checkGitSettings] once its settings request has settled (the rest of
    its [try], or its [catch]). *)
Definition checkGitSettings_resume (answer : result (option AppSettings))
  : ShellAsync unit :=
  eff_try_catch
    (saved <- eff_awaited answer ;;
     setHasGitSettings (has_root_path saved))%eff
    (fun error => setHasGitSettings false).

(** [checkGitSettings] (app.tsx, lines 21-29), run to its end. *)
Definition checkGitSettings : ShellAsync unit :=
  eff_try_catch
    (saved <- shell_await app_getSettings (getSettings api) ;;
     setHasGitSettings (has_root_path saved))%eff
    (fun error => setHasGitSettings false).

(** [checkGitSettings()] without [await]: the request leaves, the rest
    runs when its answer arrives. *)
Definition checkGitSettings_call : ShellAsync unit :=
  fun s => (Normal tt,
            {| shell_app := shell_app s; shell_panel := shell_panel s;
               sent := sent s ++ [app_getSettings];
               settings_inflight :=
                 settings_inflight s ++ [getSettings api (sent s)] |}).

(** The settings answers in flight arrive, in the order of their
    requests. *)
Definition shell_settle (s : Shell) : Shell :=
  fold_left (fun s1 answer => snd (checkGitSettings_resume answer s1))
            (settings_inflight s)
            {| shell_app := shell_app s; shell_panel := shell_panel s;
               sent := sent s;
               settings_inflight := [] |}.

(** [handleFileSelect] (app.tsx, lines 37-45) *)
Definition handleFileSelect (filePath : string) (rendered : AppState)
  : ShellAsync unit :=
  eff_try_catch
    (setSelectedFile filePath ;;
     content <- shell_await (fs_readFile filePath) (readFile api filePath) ;;
     setFileContent content)%eff
    (fun error => eff_ret tt).

(** [handleSave] (app.tsx, lines 48-64).  [editorRef_current] is what
    [editorRef.current.getMarkdown()] returns when the editor is mounted,
    and [None] when [editorRef.current] is [null]. *)
Definition handleSave (editorRef_current : option string)
  (rendered : AppState) : ShellAsync unit :=
  match truthy (selectedFile rendered) with
  | Some path =>
      eff_try_catch
        (let contentToSave :=
           match editorRef_current with
           | Some markdown => markdown
           | None => fileContent rendered
           end in
         shell_await (fs_writeFile path contentToSave)
                     (writeFile api path contentToSave))
        (fun error => eff_ret tt)
  | None => eff_ret tt
  end.

(** [disabled={!selectedFile}] of the save button. *)
Definition saveButton_disabled (rendered : AppState) : bool :=
  match truthy (selectedFile rendered) with
  | Some _ => false
  | None => true
  end.

(** [handleSettingsChange] (app.tsx, lines 67-70) *)
Definition handleSettingsChange : ShellAsync unit :=
  (checkGitSettings_call ;;
   setIsSettingsOpen false)%eff.

(** [loadSettings] of the panel's mount effect (AppSettings.tsx, lines
    27-36) *)
Definition loadSettings : ShellAsync unit :=
  eff_try_catch
    (savedSettings <- shell_await app_getSettings (getSettings api) ;;
     match savedSettings with
     | Some saved => setPanelSettings (fun _ => saved)
     | None => eff_ret tt
     end)%eff
    (fun error => eff_ret tt).

(** The panel's [handleSave] (AppSettings.tsx, lines 42-56), with the
    [onSettingsChange] it was given. *)
Definition panel_handleSave (onSettingsChange : ShellAsync unit)
  (rendered : PanelState) : ShellAsync unit :=
  (setIsSaving true ;;
   setSaveMessage None ;;
   eff_try_catch_finally
     (shell_await (app_setSettings (settings rendered))
                  (setSettings api (settings rendered)) ;;
      setSaveMessage (Some (SaveSuccess settings_saved_text)) ;;
      onSettingsChange)
     (fun error =>
        setSaveMessage (Some (SaveError settings_save_failed_text)))
     (setIsSaving false))%eff.

(** [{ ...prev, rootDirectory: { ...prev.rootDirectory, path: dirPath } }] *)
Definition with_root_path (dirPath : string) (prev : AppSettings)
  : AppSettings :=
  {| rootDirectory_path := dirPath;
     git_remoteUrl := git_remoteUrl prev;
     git_token := git_token prev;
     git_author := git_author prev |}.

(** [handleSelectDirectory] (AppSettings.tsx, lines 59-71) *)
Definition handleSelectDirectory : ShellAsync unit :=
  eff_try_catch
    (dirPath <- shell_await dialog_selectDirectory (selectDirectory api) ;;
     match truthy dirPath with
     | Some path => setPanelSettings (with_root_path path)
     | None => eff_ret tt
     end)%eff
    (fun error => eff_ret tt).

(** [<AppSettings onSettingsChange={handleSettingsChange} />]: the save
    button of the panel as [App] mounts it. *)
Definition saveSettings (rendered : PanelState) : ShellAsync unit :=
  panel_handleSave handleSettingsChange rendered.

End Shell.

(** A shell in which nothing is under way. *)
Definition shell_start (a : AppState) (p : PanelState) : Shell :=
  {| shell_app := a; shell_panel := p; sent := []; settings_inflight := [] |}.

(** [GitControls] is mounted: [!isSettingsOpen] and [hasGitSettings]. *)
Definition gitControls_mounted (a : AppState) : bool :=
  negb (isSettingsOpen a) && hasGitSettings a.

Module ShellSample.

Definition notes : AppSettings :=
  {| rootDirectory_path := "/home/ada/notes";
     git_remoteUrl := EmptyString;
     git_token := EmptyString;
     git_author := {| author_name := "Ada";
                      author_email := "ada@example.com" |} |}.

(** A disk with nothing readable, that accepts writes and keeps the
    settings it is given. *)
Definition unreadable : ShellApi :=
  {| readFile := fun _ _ => Rejected "ENOENT";
     writeFile := fun _ _ _ => Resolved tt;
     getSettings := fun sent =>
       match rev sent with
       | app_setSettings s :: _ => Resolved (Some s)
       | _ => Resolved None
       end;
     setSettings := fun _ _ => Resolved tt;
     selectDirectory := fun _ => Resolved None |}.

(** [a.md] is open and shown. *)
Definition editing : AppState :=
  {| selectedFile := Some "a.md"; fileContent := "# A";
     isSettingsOpen := false; hasGitSettings := true |}.

Definition settings_open : AppState :=
  {| selectedFile := None; fileContent := EmptyString;
     isSettingsOpen := true; hasGitSettings := false |}.

Definition panel_with_notes : PanelState :=
  {| settings := notes; isSaving := false; saveMessage := None |}.

End ShellSample.

(* ================================================================== *)
(** * The earlier [GitControls] of the same file (lines 404-756) *)
(* ================================================================== *)

(** In this version the component reads the settings itself and passes
    the root directory to every Git request.  The classification code
    (lines 434-472) is that of [classify], line for line.  Its
    [handleCommit], [handlePush] and [handlePull] name a [repoPath],
    [remoteUrl] and [token] that the component does not declare; they are
    left out, and so is [handleStageFile], which is [handleStageAll] for
    one file. *)
Module Legacy.

Inductive call : Type :=
| app_getSettings
| git_status (repoPath : string)
| git_add (repoPath filepath : string).

Record Api : Type := mkApi {
  getSettings : list call -> result (option AppSettings);
  status : string -> list call -> result StatusMatrix;
  add : string -> string -> list call -> result unit
}.

Record Controls : Type := mkControls {
  commitMessage : string;
  isLoading : bool;
  gitStatus : option GitStatus;
  statusMessage : string;
  showSettings : bool;
  isExpanded : bool
}.

(** The component, the requests sent, and the answers to the settings
    requests of [fetchGitStatus()] calls nobody awaits. *)
Record Sys : Type := mkSys {
  ui : Controls;
  issued : list call;
  inflight : list (result (option AppSettings))
}.

Definition Async (A : Type) : Type := Eff Sys A.

Definition set_ui (f : Controls -> Controls) : Async unit :=
  fun s => (Normal tt,
            {| ui := f (ui s); issued := issued s; inflight := inflight s |}).

Definition setIsLoading (v : bool) : Async unit :=
  set_ui (fun u => {| commitMessage := commitMessage u; isLoading := v;
                      gitStatus := gitStatus u;
                      statusMessage := statusMessage u;
                      showSettings := showSettings u;
                      isExpanded := isExpanded u |}).

Definition setGitStatus (v : GitStatus) : Async unit :=
  set_ui (fun u => {| commitMessage := commitMessage u;
                      isLoading := isLoading u;
                      gitStatus := Some v;
                      statusMessage := statusMessage u;
                      showSettings := showSettings u;
                      isExpanded := isExpanded u |}).

Definition setStatusMessage (v : string) : Async unit :=
  set_ui (fun u => {| commitMessage := commitMessage u;
                      isLoading := isLoading u;
                      gitStatus := gitStatus u;
                      statusMessage := v;
                      showSettings := showSettings u;
                      isExpanded := isExpanded u |}).

Definition request {A : Type} (c : call) (answer : list call -> result A)
  : Async (result A) :=
  fun s => (Normal (answer (issued s)),
            {| ui := ui s; issued := issued s ++ [c];
               inflight := inflight s |}).

Definition await {A : Type} (c : call) (answer : list call -> result A)
  : Async A :=
  (r <- request c answer ;; eff_awaited r)%eff.

(** [settings.rootDirectory.path]: a [TypeError] when [settings] is
    [null]. *)
Definition rootDirectory_path_of (settings : option AppSettings)
  : Async string :=
  match settings with
  | Some s => eff_ret (rootDirectory_path s)
  | None => eff_throw "TypeError"
  end.

Section Handlers.

Variable api : Api.

(** [fetchGitStatus] (lines 426-479), run to its end. *)
Definition fetchGitStatus : Async unit :=
  eff_try_catch
    (settings <- await app_getSettings (getSettings api) ;;
     repoPath <- rootDirectory_path_of settings ;;
     statusMatrix <- await (git_status repoPath) (status api repoPath) ;;
     setGitStatus (classify statusMatrix))%eff
    (fun error => setStatusMessage Msg.status_failed).

(** [fetchGitStatus()] without [await]: the settings request leaves, the
    rest runs when its answer arrives. *)
Definition fetchGitStatus_call : Async unit :=
  fun s => (Normal tt,
            {| ui := ui s; issued := issued s ++ [app_getSettings];
               inflight := inflight s ++ [getSettings api (issued s)] |}).

(** [!gitStatus || gitStatus.unstaged.length === 0] *)
Definition nothing_unstaged (rendered : Controls) : bool :=
  match gitStatus rendered with
  | None => true
  | Some g => Nat.eqb (List.length (unstaged g)) 0
  end.

Definition unstaged_files (rendered : Controls) : list FileChange :=
  match gitStatus rendered with
  | None => []
  | Some g => unstaged g
  end.

(** [handleStageAll] (lines 554-577) *)
Definition handleStageAll (rendered : Controls) : Async unit :=
  if nothing_unstaged rendered then eff_ret tt
  else
    eff_try_catch_finally
      (setIsLoading true ;;
       settings <- await app_getSettings (getSettings api) ;;
       repoPath <- rootDirectory_path_of settings ;;
       eff_for_of (unstaged_files rendered)
         (fun file => await (git_add repoPath (filename file))
                            (add api repoPath (filename file))) ;;
       setStatusMessage Msg.staged_all ;;
       fetchGitStatus_call)%eff
      (fun error => setStatusMessage Msg.stage_all_failed)
      (setIsLoading false).

Definition start (u : Controls) : Sys :=
  {| ui := u; issued := []; inflight := [] |}.

Definition after (h : Controls -> Async unit) (u : Controls) : Sys :=
  snd (h u (start u)).

End Handlers.


(** [u] with the Loading flag down and another message. *)
Definition idle_with (message : string) (u : Controls) : Controls :=
  {| commitMessage := commitMessage u; isLoading := false;
     gitStatus := gitStatus u; statusMessage := message;
     showSettings := showSettings u; isExpanded := isExpanded u |}.

(** [u] with the fetch-failed message. *)
Definition fetch_failed (u : Controls) : Controls :=
  {| commitMessage := commitMessage u; isLoading := isLoading u;
     gitStatus := gitStatus u; statusMessage := Msg.status_failed;
     showSettings := showSettings u; isExpanded := isExpanded u |}.

(** Settings that are there: resolved, and not [null]. *)
Definition settings_read (answer : result (option AppSettings))
  : option AppSettings :=
  match answer with
  | Resolved (Some s) => Some s
  | Resolved None | Rejected _ => None
  end.

Module Sample.

Definition notes : AppSettings :=
  {| rootDirectory_path := "/home/ada/notes";
     git_remoteUrl := EmptyString;
     git_token := EmptyString;
     git_author := {| author_name := "Ada";
                      author_email := "ada@example.com" |} |}.


(** Nothing was ever saved. *)
Definition no_settings : Api :=
  {| getSettings := fun _ => Resolved None;
     status := fun _ _ => Resolved [];
     add := fun _ _ _ => Resolved tt |}.

Definition two_unstaged : Controls :=
  {| commitMessage := EmptyString; isLoading := false;
     gitStatus := Some {| staged := [];
                          unstaged := [mkFileChange "x" false;
                                       mkFileChange "y" true] |};
     statusMessage := EmptyString; showSettings := false;
     isExpanded := true |}.

End Sample.

End Legacy.

(** Unfolds the sequencing of a handler down to the capability's answers. *)
Ltac run_async :=
  unfold try_catch_finally, try_catch, bind, await, request, awaited; cbn.

(* ================================================================== *)
(** * The classifier against the case table *)
(* ================================================================== *)

Section Classifier.

(** One visit appends what the table says of the row. *)
Lemma visit_table (e : StatusMatrixEntry) (g : GitStatus) :
  visit e g = {| staged := staged g ++ table_staged e;
                 unstaged := unstaged g ++ table_unstaged e |}.
Proof.
  destruct e as [[[name head] workTree] stage], g as [st un].
  destruct head, workTree, stage; cbn; now rewrite ?app_nil_r.
Qed.

Lemma fold_visit (l : list StatusMatrixEntry) (g : GitStatus) :
  fold_left (fun acc e => visit e acc) l g
  = {| staged := staged g ++ flat_map table_staged l;
       unstaged := unstaged g ++ flat_map table_unstaged l |}.
Proof.
  revert g; induction l as [|e l IH]; intros g; cbn [fold_left flat_map].
  - destruct g; cbn; now rewrite !app_nil_r.
  - rewrite IH, visit_table; cbn. now rewrite <- !app_assoc.
Qed.

Lemma callback_matrix (e : StatusMatrixEntry) (h : LoopHeap) :
  heap_matrix (callback e h) = heap_matrix h.
Proof. reflexivity. Qed.

Lemma skipn_nth_error {A : Type} (l : list A) (k : nat) (a : A) :
  nth_error l k = Some a -> skipn k l = a :: skipn (S k) l.
Proof.
  revert k; induction l as [|b l IH]; intros [|k] Hk; cbn in Hk;
    try discriminate.
  - now injection Hk as ->.
  - cbn [skipn]. now rewrite (IH _ Hk).
Qed.

(** The loop visits the rows [k, k+1, ..., k+n-1] of the array it was
    given, and leaves that array as it found it. *)
Lemma forEach_from_fold (n k : nat) (h : LoopHeap) :
  forEach_from n k h
  = {| heap_matrix := heap_matrix h;
       heap_gitStatus :=
         fold_left (fun acc e => visit e acc)
                   (firstn n (skipn k (heap_matrix h)))
                   (heap_gitStatus h) |}.
Proof.
  revert k h; induction n as [|n IH]; intros k h; cbn [forEach_from].
  - now destruct h.
  - destruct (nth_error (heap_matrix h) k) as [e|] eqn:Hk.
    + rewrite IH, callback_matrix, (skipn_nth_error _ _ Hk). reflexivity.
    + rewrite IH. apply nth_error_None in Hk.
      rewrite !skipn_all2 by lia. now rewrite !firstn_nil.
Qed.

Lemma classify_heap_table (m : StatusMatrix) :
  classify_heap m
  = {| heap_matrix := m; heap_gitStatus := classify_table m |}.
Proof.
  unfold classify_heap, forEach. rewrite forEach_from_fold. cbn.
  now rewrite firstn_all, fold_visit.
Qed.

(** Rows that contribute at most their own file name, in order, give a
    subsequence of the file names. *)
Lemma Subseq_flat_map (pick : StatusMatrixEntry -> list FileChange)
  (m : StatusMatrix) :
  (forall e, pick e = []
             \/ exists d, pick e = [mkFileChange (entry_filename e) d]) ->
  Subseq (map filename (flat_map pick m)) (map entry_filename m).
Proof.
  intros Hpick. induction m as [|e m IH]; cbn.
  - constructor.
  - destruct (Hpick e) as [-> | (d & ->)]; cbn; constructor; exact IH.
Qed.

Lemma table_staged_shape (e : StatusMatrixEntry) :
  table_staged e = []
  \/ exists d, table_staged e = [mkFileChange (entry_filename e) d].
Proof.
  destruct e as [[[name head] workTree] stage]. unfold table_staged.
  destruct (fst (table_row head workTree stage)) as [d|]; cbn; eauto.
Qed.

Lemma table_unstaged_shape (e : StatusMatrixEntry) :
  table_unstaged e = []
  \/ exists d, table_unstaged e = [mkFileChange (entry_filename e) d].
Proof.
  destruct e as [[[name head] workTree] stage]. unfold table_unstaged.
  destruct (snd (table_row head workTree stage)) as [d|]; cbn; eauto.
Qed.

End Classifier.

(** C1.  For every status matrix, the classification the code builds is
    the one of the six-row case table: each input row contributes to the
    staged and to the unstaged list exactly what its table row says
    (nothing when the combination is not in the table, an entry in both
    lists for a staged file modified again), and both lists keep the
    relative order of the input rows. *)
Theorem classify_follows_case_table (m : StatusMatrix) :
  classify m = classify_table m
  /\ Subseq (map filename (staged (classify m))) (map entry_filename m)
  /\ Subseq (map filename (unstaged (classify m))) (map entry_filename m).
Proof.
  assert (H : classify m = classify_table m).
  { unfold classify. now rewrite classify_heap_table. }
  rewrite H. split; [reflexivity|]. split; cbn.
  - apply Subseq_flat_map, table_staged_shape.
  - apply Subseq_flat_map, table_unstaged_shape.
Qed.

(* ================================================================== *)
(** * [fetchGitStatus] *)
(* ================================================================== *)

Section Refresh.

Variable api : Api.

(** Running [fetchGitStatus] to its end is sending the request and then
    resuming with its answer. *)
Lemma fetchGitStatus_split (s : Sys) :
  fetchGitStatus api s
  = fetchGitStatus_resume (status api (issued s))
      {| ui := ui s; issued := issued s ++ [git_status];
         inflight := inflight s |}.
Proof.
  unfold fetchGitStatus, fetchGitStatus_resume, try_catch, await, request,
    bind, awaited; cbn.
  destruct (status api (issued s)); reflexivity.
Qed.

Lemma resume_isLoading (answer : result StatusMatrix) (s : Sys) :
  isLoading (ui (snd (fetchGitStatus_resume answer s))) = isLoading (ui s).
Proof. destruct answer; reflexivity. Qed.

Lemma settle_isLoading (s : Sys) :
  isLoading (ui (settle s)) = isLoading (ui s).
Proof.
  unfold settle.
  change (isLoading (ui s)) with
    (isLoading (ui {| ui := ui s; issued := issued s; inflight := [] |})).
  generalize {| ui := ui s; issued := issued s; inflight := [] |}.
  induction (inflight s) as [|answer l IH]; intros s0; cbn [fold_left].
  - reflexivity.
  - now rewrite IH, resume_isLoading.
Qed.

End Refresh.

(** C2.  The classification is a function of the status matrix alone: two
    runs of [fetchGitStatus] whose status request is answered with the same
    matrix leave the same [gitStatus], whatever the capability, the state
    of the component and the requests sent before were, and the loop leaves
    the matrix it walks as it was given. *)
Theorem classification_depends_on_matrix_only
  (api1 api2 : Api) (s1 s2 : Sys) (m : StatusMatrix) :
  status api1 (issued s1) = Resolved m ->
  status api2 (issued s2) = Resolved m ->
  gitStatus (ui (snd (fetchGitStatus api1 s1)))
  = gitStatus (ui (snd (fetchGitStatus api2 s2)))
  /\ gitStatus (ui (snd (fetchGitStatus api1 s1))) = Some (classify m)
  /\ heap_matrix (classify_heap m) = m.
Proof.
  intros H1 H2. rewrite !fetchGitStatus_split, H1, H2.
  repeat split. now rewrite classify_heap_table.
Qed.

Lemma classification_depends_on_matrix_only_witness :
  let m := [("n.md", HeadStatus.ABSENT, WorkdirStatus.MODIFIED,
             StageStatus.ABSENT)] in
  let s1 := start Sample.two_unstaged in
  let s2 := {| ui := Sample.three_staged; issued := [git_pull];
               inflight := [] |} in
  gitStatus (ui (snd (fetchGitStatus Sample.granting s1)))
  = gitStatus (ui (snd (fetchGitStatus Sample.granting s2)))
  /\ gitStatus (ui (snd (fetchGitStatus Sample.granting s1)))
     = Some (classify m)
  /\ heap_matrix (classify_heap m) = m.
Proof.
  intros m s1 s2.
  apply (@classification_depends_on_matrix_only
           Sample.granting Sample.granting s1 s2 m); reflexivity.
Defined.

(** C5.  [fetchGitStatus] never throws.  When the status request is
    rejected it sets the message "Gitステータスの取得に失敗しました" and
    leaves [gitStatus] and every other cell as they were; when the request
    is resolved it replaces [gitStatus] by the classification of the matrix
    received and touches nothing else.  Either way it has sent exactly one
    status request. *)
Theorem fetchGitStatus_outcome (api : Api) (s : Sys) :
  fetchGitStatus api s
  = (Normal tt,
     {| ui :=
          match status api (issued s) with
          | Rejected _ =>
              {| commitMessage := commitMessage (ui s);
                 isLoading := isLoading (ui s);
                 gitStatus := gitStatus (ui s);
                 statusMessage := Msg.status_failed;
                 isExpanded := isExpanded (ui s) |}
          | Resolved statusMatrix =>
              {| commitMessage := commitMessage (ui s);
                 isLoading := isLoading (ui s);
                 gitStatus := Some (classify statusMatrix);
                 statusMessage := statusMessage (ui s);
                 isExpanded := isExpanded (ui s) |}
          end;
        issued := issued s ++ [git_status];
        inflight := inflight s |}).
Proof.
  rewrite fetchGitStatus_split.
  destruct (status api (issued s)); reflexivity.
Qed.

(* ================================================================== *)
(** * Loops of awaited requests *)
(* ================================================================== *)

Section Loops.

Variable answer : string -> list call -> result unit.
Variable mk : string -> call.

Lemma calls_for_app (l1 l2 : list FileChange) :
  calls_for mk (l1 ++ l2) = calls_for mk l1 ++ calls_for mk l2.
Proof. apply map_app. Qed.

(** When every request is resolved the loop sends one request per file,
    in the order of the list, and ends normally. *)
Lemma for_of_all_resolved (files : list FileChange) (s : Sys) :
  all_resolved answer mk (issued s) files = true ->
  for_of files (await_each answer mk) s
  = (Normal tt,
     {| ui := ui s; issued := issued s ++ calls_for mk files;
        inflight := inflight s |}).
Proof.
  revert s; induction files as [|file rest IH]; intros s Hall;
    cbn [for_of all_resolved calls_for map] in *.
  - destruct s; cbn. now rewrite app_nil_r.
  - unfold bind at 1. unfold await_each at 1, await, request, bind, awaited.
    cbn [ui issued inflight].
    destruct (answer (filename file) (issued s)) as [[]|e];
      [|discriminate].
    rewrite IH by exact Hall. cbn [ui issued inflight].
    now rewrite <- app_assoc.
Qed.

(** When the request of [file] is the first to be rejected, the loop
    throws after sending it: the files behind it get no request. *)
Lemma for_of_first_rejected (pre post : list FileChange)
  (file : FileChange) (e : string) (s : Sys) :
  all_resolved answer mk (issued s) pre = true ->
  answer (filename file) (issued s ++ calls_for mk pre) = Rejected e ->
  for_of (pre ++ file :: post) (await_each answer mk) s
  = (Throw e,
     {| ui := ui s; issued := issued s ++ calls_for mk (pre ++ [file]);
        inflight := inflight s |}).
Proof.
  revert s; induction pre as [|p pre IH]; intros s Hall Hrej;
    cbn [for_of all_resolved calls_for map app] in *.
  - rewrite app_nil_r in Hrej.
    unfold bind at 1. unfold await_each at 1, await, request, bind, awaited.
    cbn [ui issued inflight]. now rewrite Hrej.
  - unfold bind at 1. unfold await_each at 1, await, request, bind, awaited.
    cbn [ui issued inflight].
    destruct (answer (filename p) (issued s)) as [[]|e'];
      [|discriminate].
    rewrite IH; cbn [ui issued inflight].
    + now rewrite <- app_assoc.
    + exact Hall.
    + now rewrite <- app_assoc.
Qed.

(** Either every request is resolved, or one is the first rejected. *)
Lemma all_resolved_or_first_rejected (files : list FileChange)
  (sent : list call) :
  all_resolved answer mk sent files = true
  \/ exists pre file post e,
       files = pre ++ file :: post
       /\ all_resolved answer mk sent pre = true
       /\ answer (filename file) (sent ++ calls_for mk pre) = Rejected e.
Proof.
  revert sent; induction files as [|f rest IH]; intros sent;
    cbn [all_resolved].
  - now left.
  - destruct (answer (filename f) sent) as [[]|e] eqn:Hf.
    + destruct (IH (sent ++ [mk (filename f)]))
        as [Hall | (pre & file & post & e & -> & Hpre & Hrej)].
      * now left.
      * right. exists (f :: pre), file, post, e. cbn [all_resolved].
        rewrite Hf. repeat split; [exact Hpre|].
        cbn [calls_for map]. now rewrite <- app_assoc in Hrej.
    + right. exists [], f, rest, e. cbn. now rewrite app_nil_r.
Qed.

End Loops.

(** The guard [!gitStatus || gitStatus.<list>.length === 0] lets a handler
    through exactly when there is a status and its list is not empty. *)
Lemma nothing_in_false (list_of : GitStatus -> list FileChange)
  (u : Controls) :
  nothing_in list_of u = false <->
  exists g, gitStatus u = Some g /\ list_of g <> [].
Proof.
  unfold nothing_in. destruct (gitStatus u) as [g|].
  - destruct (list_of g) eqn:Hl; cbn; split.
    + discriminate.
    + intros (g' & Hg & Hne). injection Hg as <-. congruence.
    + intros _. exists g. split; [reflexivity|]. now rewrite Hl.
    + reflexivity.
  - split; [discriminate|]. now intros (g & Hg & _).
Qed.

(** The [finally] of the handlers: whatever the body does, the handler
    returns normally with the flag down. *)
Lemma try_catch_finally_idle (body : Async unit) (failed : string)
  (s : Sys) :
  fst (try_catch_finally body (fun _ => setStatusMessage failed)
         (setIsLoading false) s) = Normal tt
  /\ isLoading (ui (snd (try_catch_finally body
                           (fun _ => setStatusMessage failed)
                           (setIsLoading false) s))) = false.
Proof.
  unfold try_catch_finally, try_catch.
  destruct (body s) as [[[]|e] s1]; split; reflexivity.
Qed.

Section AllHandlers.

Variable api : Api.

Lemma handleStageAll_all_handler :
  handleStageAll api
  = all_handler api unstaged git_add (add api)
      Msg.staged_all Msg.stage_all_failed.
Proof. reflexivity. Qed.

Lemma handleUnstageAll_all_handler :
  handleUnstageAll api
  = all_handler api staged git_unstage (unstage api)
      Msg.unstaged_all Msg.unstage_all_failed.
Proof. reflexivity. Qed.

Variable list_of : GitStatus -> list FileChange.
Variable mk : string -> call.
Variable answer : string -> list call -> result unit.
Variables done failed : string.

Lemma all_handler_guard (u : Controls) :
  nothing_in list_of u = true ->
  invoke (all_handler api list_of mk answer done failed) u
  = (Normal tt, start u).
Proof.
  intros H. unfold invoke, all_handler. now rewrite H.
Qed.

Lemma all_handler_all_resolved (u : Controls) :
  nothing_in list_of u = false ->
  all_resolved answer mk [] (files_in list_of u) = true ->
  invoke (all_handler api list_of mk answer done failed) u
  = (Normal tt,
     {| ui := idle_with done u;
        issued := calls_for mk (files_in list_of u) ++ [git_status];
        inflight :=
          [status api (calls_for mk (files_in list_of u))] |}).
Proof.
  intros Hguard Hall. unfold invoke, all_handler. rewrite Hguard.
  unfold try_catch_finally, try_catch.
  unfold bind at 1. cbn [setIsLoading set_ui start ui issued inflight].
  unfold bind at 1.
  change (fun file : FileChange =>
            await (mk (filename file)) (answer (filename file)))
    with (await_each answer mk).
  rewrite for_of_all_resolved by exact Hall.
  reflexivity.
Qed.

Lemma all_handler_first_rejected (u : Controls)
  (pre post : list FileChange) (file : FileChange) (e : string) :
  nothing_in list_of u = false ->
  files_in list_of u = pre ++ file :: post ->
  all_resolved answer mk [] pre = true ->
  answer (filename file) (calls_for mk pre) = Rejected e ->
  invoke (all_handler api list_of mk answer done failed) u
  = (Normal tt,
     {| ui := idle_with failed u;
        issued := calls_for mk (pre ++ [file]);
        inflight := [] |}).
Proof.
  intros Hguard Hfiles Hall Hrej. unfold invoke, all_handler.
  rewrite Hguard, Hfiles.
  unfold try_catch_finally, try_catch.
  unfold bind at 1. cbn [setIsLoading set_ui start ui issued inflight].
  unfold bind at 1.
  change (fun file : FileChange =>
            await (mk (filename file)) (answer (filename file)))
    with (await_each answer mk).
  rewrite for_of_first_rejected with (e := e); [reflexivity| |];
    cbn [ui issued inflight app]; assumption.
Qed.

(** Past its guard the handler sends at least the request of the first
    file. *)
Lemma all_handler_sends (u : Controls) :
  nothing_in list_of u = false ->
  issued (after (all_handler api list_of mk answer done failed) u) <> [].
Proof.
  intros Hguard. unfold after.
  destruct (all_resolved_or_first_rejected answer mk
              (files_in list_of u) [])
    as [Hall | (pre & file & post & e & Hfiles & Hall & Hrej)].
  - rewrite (all_handler_all_resolved u Hguard Hall). cbn [snd issued].
    now destruct (calls_for mk (files_in list_of u)).
  - rewrite (all_handler_first_rejected u pre post file Hguard Hfiles
               Hall Hrej).
    cbn [snd issued]. rewrite calls_for_app.
    now destruct (calls_for mk pre).
Qed.

(** Past its guard the handler returns normally, the flag down. *)
Lemma all_handler_idle (u : Controls) :
  nothing_in list_of u = false ->
  fst (invoke (all_handler api list_of mk answer done failed) u)
  = Normal tt
  /\ isLoading (ui (after (all_handler api list_of mk answer done failed)
                          u)) = false.
Proof.
  intros Hguard. unfold after, invoke, all_handler. rewrite Hguard.
  apply try_catch_finally_idle.
Qed.

End AllHandlers.

Lemma nothing_in_true (list_of : GitStatus -> list FileChange)
  (u : Controls) :
  nothing_in list_of u = true <->
  gitStatus u = None \/ exists g, gitStatus u = Some g /\ list_of g = [].
Proof.
  unfold nothing_in. destruct (gitStatus u) as [g|].
  - destruct (list_of g) eqn:Hl; cbn; split.
    + intros _. right. now exists g.
    + reflexivity.
    + discriminate.
    + intros [H | (g' & Hg & Hnil)]; [discriminate|].
      injection Hg as <-. congruence.
  - split; [now left | reflexivity].
Qed.

Lemma files_in_some (list_of : GitStatus -> list FileChange)
  (u : Controls) (g : GitStatus) :
  gitStatus u = Some g -> files_in list_of u = list_of g.
Proof. unfold files_in. now intros ->. Qed.

(* ================================================================== *)
(** * Stage all, unstage all *)
(* ================================================================== *)

(** C3, as stated, fails: with [unstaged = [{x,false},{y,true}]] and a
    capability that rejects the request for [x], [handleStageAll] sends the
    stage request of [x] only, not one per entry. *)
Lemma stage_all_stops_before_y :
  issued (after (handleStageAll Sample.rejecting) Sample.two_unstaged)
  = [git_add "x"]
  /\ ~ one_stage_call_per_entry Sample.rejecting Sample.two_unstaged.
Proof.
  split; [reflexivity|]. unfold one_stage_call_per_entry.
  vm_compute. discriminate.
Qed.

(** C3, amended.  With no status yet or an empty unstaged list,
    [handleStageAll] sends no request and changes no state.  Otherwise it
    sends the stage requests one after the other in the order of the
    unstaged list: one per entry followed by exactly one status request
    when every stage request is resolved, and one per entry up to the first
    rejected one, and nothing after it, when one is rejected. *)
Theorem handleStageAll_requests (api : Api) (u : Controls) :
  (gitStatus u = None
   \/ (exists g, gitStatus u = Some g /\ unstaged g = []) ->
   invoke (handleStageAll api) u = (Normal tt, start u))
  /\ (forall g,
        gitStatus u = Some g -> unstaged g <> [] ->
        all_resolved (add api) git_add [] (unstaged g) = true ->
        issued (after (handleStageAll api) u)
        = calls_for git_add (unstaged g) ++ [git_status])
  /\ (forall g pre file post e,
        gitStatus u = Some g -> unstaged g = pre ++ file :: post ->
        all_resolved (add api) git_add [] pre = true ->
        add api (filename file) (calls_for git_add pre) = Rejected e ->
        issued (after (handleStageAll api) u)
        = calls_for git_add (pre ++ [file])).
Proof.
  rewrite handleStageAll_all_handler. repeat split.
  - intros H. apply all_handler_guard, nothing_in_true, H.
  - intros g Hg Hne Hall. unfold after.
    rewrite all_handler_all_resolved; cbn [snd issued].
    + now rewrite (files_in_some _ _ Hg).
    + apply nothing_in_false. now exists g.
    + now rewrite (files_in_some _ _ Hg).
  - intros g pre file post e Hg Hfiles Hall Hrej. unfold after.
    rewrite all_handler_first_rejected
      with (pre := pre) (post := post) (file := file) (e := e);
      try assumption; [reflexivity| |].
    + apply nothing_in_false. exists g. split; [assumption|].
      rewrite Hfiles. now destruct pre.
    + now rewrite (files_in_some _ _ Hg).
Qed.

Lemma handleStageAll_requests_witness :
  invoke (handleStageAll Sample.granting) Sample.three_staged
  = (Normal tt, start Sample.three_staged)
  /\ issued (after (handleStageAll Sample.granting) Sample.two_unstaged)
     = [git_add "x"; git_add "y"; git_status]
  /\ issued (after (handleStageAll Sample.granting_once)
                   Sample.two_unstaged)
     = [git_add "x"; git_add "y"].
Proof.
  pose proof (handleStageAll_requests Sample.granting Sample.three_staged)
    as (Hguard & _ & _).
  pose proof (handleStageAll_requests Sample.granting Sample.two_unstaged)
    as (_ & Hall & _).
  pose proof (handleStageAll_requests Sample.granting_once
                Sample.two_unstaged) as (_ & _ & Hrej).
  split; [|split].
  - apply Hguard. right.
    exists {| staged := [Sample.x; Sample.y; Sample.z]; unstaged := [] |}.
    split; reflexivity.
  - apply (Hall {| staged := []; unstaged := [Sample.x; Sample.y] |});
      [reflexivity | discriminate | reflexivity].
  - apply (Hrej {| staged := []; unstaged := [Sample.x; Sample.y] |}
                [Sample.x] Sample.y [] "busy"); reflexivity.
Defined.

(** C10.  When a per-file request of [handleStageAll] is the first to be
    rejected, the entries behind it get no stage request, no status request
    is sent (none is in flight), the message "変更のステージングに失敗しました"
    is set, the Loading flag ends false and nothing is thrown;
    [handleUnstageAll] does the same over the staged list, with the
    message "ステージング取り消しに失敗しました". *)
Theorem all_handlers_abort_on_first_rejection
  (api : Api) (u : Controls) (g : GitStatus)
  (pre post : list FileChange) (file : FileChange) (e : string) :
  gitStatus u = Some g ->
  (unstaged g = pre ++ file :: post ->
   all_resolved (add api) git_add [] pre = true ->
   add api (filename file) (calls_for git_add pre) = Rejected e ->
   invoke (handleStageAll api) u
   = (Normal tt,
      {| ui := idle_with Msg.stage_all_failed u;
         issued := calls_for git_add pre ++ [git_add (filename file)];
         inflight := [] |}))
  /\ (staged g = pre ++ file :: post ->
      all_resolved (unstage api) git_unstage [] pre = true ->
      unstage api (filename file) (calls_for git_unstage pre) = Rejected e ->
      invoke (handleUnstageAll api) u
      = (Normal tt,
         {| ui := idle_with Msg.unstage_all_failed u;
            issued :=
              calls_for git_unstage pre ++ [git_unstage (filename file)];
            inflight := [] |})).
Proof.
  intros Hg.
  rewrite handleStageAll_all_handler, handleUnstageAll_all_handler.
  split; intros Hfiles Hall Hrej;
    rewrite all_handler_first_rejected
      with (pre := pre) (post := post) (file := file) (e := e);
    try assumption;
    try (now rewrite calls_for_app);
    try (now rewrite (files_in_some _ _ Hg));
    apply nothing_in_false; exists g; (split; [assumption|]);
    rewrite Hfiles; now destruct pre.
Qed.

Lemma all_handlers_abort_on_first_rejection_witness :
  invoke (handleStageAll Sample.granting_once) Sample.two_unstaged
  = (Normal tt,
     {| ui := idle_with Msg.stage_all_failed Sample.two_unstaged;
        issued := [git_add "x"; git_add "y"];
        inflight := [] |})
  /\ invoke (handleUnstageAll Sample.granting_once) Sample.three_staged
     = (Normal tt,
        {| ui := idle_with Msg.unstage_all_failed Sample.three_staged;
           issued := [git_unstage "x"; git_unstage "y"];
           inflight := [] |}).
Proof.
  split.
  - apply (proj1 (@all_handlers_abort_on_first_rejection
             Sample.granting_once Sample.two_unstaged
             {| staged := []; unstaged := [Sample.x; Sample.y] |}
             [Sample.x] [] Sample.y "busy" eq_refl)); reflexivity.
  - apply (proj2 (@all_handlers_abort_on_first_rejection
             Sample.granting_once Sample.three_staged
             {| staged := [Sample.x; Sample.y; Sample.z]; unstaged := [] |}
             [Sample.x] [Sample.z] Sample.y "busy" eq_refl)); reflexivity.
Defined.

(* ================================================================== *)
(** * The Loading flag *)
(* ================================================================== *)

(** A handler either stops at its guard, having done nothing, or runs its
    [try/catch/finally] to the end. *)
Lemma handler_guard_or_idle (api : Api) (op : operation) (u : Controls) :
  invoke (handler api op) u = (Normal tt, start u)
  \/ (fst (invoke (handler api op) u) = Normal tt
      /\ isLoading (ui (after (handler api op) u)) = false
      /\ issued (after (handler api op) u) <> []).
Proof.
  destruct op as [f|f| | | | | ]; cbn [handler].
  - right. unfold after, invoke, handleStageFile.
    split; [|split]; try apply try_catch_finally_idle.
    run_async. destruct (add api f []); cbn; discriminate.
  - right. unfold after, invoke, handleUnstageFile.
    split; [|split]; try apply try_catch_finally_idle.
    run_async. destruct (unstage api f []); cbn; discriminate.
  - rewrite handleStageAll_all_handler.
    destruct (nothing_in unstaged u) eqn:Hguard.
    + left. now apply all_handler_guard.
    + right. split; [|split]; try (now apply all_handler_idle).
      now apply all_handler_sends.
  - rewrite handleUnstageAll_all_handler.
    destruct (nothing_in staged u) eqn:Hguard.
    + left. now apply all_handler_guard.
    + right. split; [|split]; try (now apply all_handler_idle).
      now apply all_handler_sends.
  - unfold after, invoke, handleCommit.
    destruct (is_empty (commitMessage u)).
    + now left.
    + right. unfold bind at 1. cbn [setIsLoading set_ui].
      split; [|split]; try apply try_catch_finally_idle.
      run_async.
      destruct (commit api (commitMessage u) []); cbn; discriminate.
  - right. unfold after, invoke, handlePush.
    unfold bind at 1. cbn [setIsLoading set_ui].
    split; [|split]; try apply try_catch_finally_idle.
    run_async. destruct (push api []); cbn; discriminate.
  - right. unfold after, invoke, handlePull.
    unfold bind at 1. cbn [setIsLoading set_ui].
    split; [|split]; try apply try_catch_finally_idle.
    run_async. destruct (pull api []); cbn; discriminate.
Qed.

(** C4.  For each of the seven mutating operations, whatever the
    capability answers: when the handler is invoked in state Idle, or when
    it has sent at least one request, it returns normally with the Loading
    flag false, and the flag is still false once the status answer of its
    refresh has arrived. *)
Theorem loading_flag_cleared (api : Api) (op : operation) (u : Controls) :
  isLoading u = false \/ issued (after (handler api op) u) <> [] ->
  fst (invoke (handler api op) u) = Normal tt
  /\ isLoading (ui (after (handler api op) u)) = false
  /\ isLoading (ui (settled (handler api op) u)) = false.
Proof.
  intros Hpre. unfold settled. rewrite settle_isLoading.
  destruct (handler_guard_or_idle api op u) as [Hguard | (Hn & Hidle & _)].
  - unfold after in *. rewrite Hguard in *. cbn in *.
    destruct Hpre as [Hidle | Hsent]; [|contradiction].
    repeat split; exact Hidle.
  - repeat split; assumption.
Qed.

Lemma loading_flag_cleared_witness :
  fst (invoke (handler Sample.rejecting Commit) Sample.ready_to_commit)
  = Normal tt
  /\ isLoading (ui (after (handler Sample.rejecting Commit)
                          Sample.ready_to_commit)) = false
  /\ isLoading (ui (settled (handler Sample.rejecting Commit)
                            Sample.ready_to_commit)) = false.
Proof.
  apply (loading_flag_cleared Sample.rejecting Commit
           Sample.ready_to_commit).
  left. reflexivity.
Defined.

(* ================================================================== *)
(** * Commit *)
(* ================================================================== *)

Lemma is_empty_false (s : string) : s <> EmptyString -> is_empty s = false.
Proof. destruct s; [congruence | reflexivity]. Qed.

(** What [handleCommit] does when the guard lets it through. *)
Lemma handleCommit_run (api : Api) (u : Controls) :
  commitMessage u <> EmptyString ->
  invoke (handleCommit api) u
  = (Normal tt,
     match commit api (commitMessage u) [] with
     | Resolved sha =>
         {| ui := {| commitMessage := EmptyString; isLoading := false;
                     gitStatus := gitStatus u;
                     statusMessage := Msg.committed ++ slice 0 7 sha;
                     isExpanded := isExpanded u |};
            issued := [git_commit (commitMessage u); git_status];
            inflight := [status api [git_commit (commitMessage u)]] |}
     | Rejected _ =>
         {| ui := idle_with Msg.commit_failed u;
            issued := [git_commit (commitMessage u)];
            inflight := [] |}
     end).
Proof.
  intros Hmsg. unfold invoke, handleCommit.
  rewrite (@is_empty_false _ Hmsg).
  run_async.
  destruct (commit api (commitMessage u) []); reflexivity.
Qed.

Lemma substring_0_length (n : nat) (s : string) :
  String.length (substring 0 n s) = Nat.min n (String.length s).
Proof.
  revert s; induction n as [|n IH]; intros [|c s]; cbn; auto.
Qed.

Lemma substring_0_prefix (n : nat) (s : string) :
  prefix (substring 0 n s) s = true.
Proof.
  revert s; induction n as [|n IH]; intros [|c s]; cbn; auto.
  rewrite IH. now destruct (ascii_dec c c).
Qed.

(** C6, as stated, fails: with the author "Ada" in the persisted settings,
    a message and a staged file, no request of [handleCommit] carries both
    the message and that author. *)
Lemma commit_request_carries_no_author :
  ~ commit_passes_message_and_author Sample.granting Sample.settings
      Sample.ready_to_commit.
Proof.
  intros (c & Hin & _ & Hauthor).
  vm_compute in Hin.
  destruct Hin as [<- | [<- | []]]; cbn in Hauthor.
  - destruct Hauthor as [H | []]. discriminate.
  - destruct Hauthor.
Qed.

(** C6, amended.  Every invocation of [handleCommit] with a message that
    is not empty sends exactly one commit request, whose only argument is
    the commit message; no request of the handler carries an author, and
    the preload's [commit], which forwards the arguments of its caller and
    reads no settings, leaves the author of that request undefined. *)
Theorem handleCommit_passes_message_only (api : Api) (u : Controls) :
  commitMessage u <> EmptyString ->
  filter is_git_commit (issued (after (handleCommit api) u))
  = [git_commit (commitMessage u)]
  /\ call_args (git_commit (commitMessage u))
     = [JsString (commitMessage u)]
  /\ (forall c name email,
        In c (issued (after (handleCommit api) u)) ->
        ~ In (JsAuthor name email) (call_args c))
  /\ preload_commit (call_args (git_commit (commitMessage u)))
     = [JsString (commitMessage u); JsUndefined; JsUndefined].
Proof.
  intros Hmsg. unfold after. rewrite (@handleCommit_run api u Hmsg).
  destruct (commit api (commitMessage u) []); cbn [snd issued filter
    is_git_commit call_args preload_commit nth];
    (split; [reflexivity | split; [reflexivity | split; [|reflexivity]]]);
    intros c name email Hin Hauthor.
  - destruct Hin as [<- | [<- | []]]; cbn in Hauthor.
    + destruct Hauthor as [H | []]. discriminate H.
    + destruct Hauthor.
  - destruct Hin as [<- | []]; cbn in Hauthor.
    destruct Hauthor as [H | []]. discriminate H.
Qed.

Lemma handleCommit_passes_message_only_witness :
  filter is_git_commit
    (issued (after (handleCommit Sample.granting) Sample.ready_to_commit))
  = [git_commit "fix typo"]
  /\ call_args (git_commit "fix typo") = [JsString "fix typo"]
  /\ (forall c name email,
        In c (issued (after (handleCommit Sample.granting)
                            Sample.ready_to_commit)) ->
        ~ In (JsAuthor name email) (call_args c))
  /\ preload_commit (call_args (git_commit "fix typo"))
     = [JsString "fix typo"; JsUndefined; JsUndefined].
Proof.
  apply (handleCommit_passes_message_only Sample.granting
           Sample.ready_to_commit).
  discriminate.
Defined.

(** C7.  When the commit request is resolved with a hash, [handleCommit]
    sets the status message to "変更をコミットしました: " followed by
    [sha.slice(0, 7)], the first seven characters of the hash, sets the
    message input to the empty string, sends one status request after the
    commit request, and leaves its answer in flight. *)
Theorem handleCommit_success (api : Api) (u : Controls) (sha : string) :
  commitMessage u <> EmptyString ->
  commit api (commitMessage u) [] = Resolved sha ->
  invoke (handleCommit api) u
  = (Normal tt,
     {| ui := {| commitMessage := EmptyString; isLoading := false;
                 gitStatus := gitStatus u;
                 statusMessage := Msg.committed ++ slice 0 7 sha;
                 isExpanded := isExpanded u |};
        issued := [git_commit (commitMessage u); git_status];
        inflight := [status api [git_commit (commitMessage u)]] |})
  /\ prefix (slice 0 7 sha) sha = true
  /\ String.length (slice 0 7 sha) = Nat.min 7 (String.length sha).
Proof.
  intros Hmsg Hsha. rewrite (@handleCommit_run api u Hmsg), Hsha.
  split; [reflexivity|]. unfold slice. cbn [Nat.sub]. split.
  - apply substring_0_prefix.
  - apply substring_0_length.
Qed.

Lemma handleCommit_success_witness :
  invoke (handleCommit Sample.granting) Sample.ready_to_commit
  = (Normal tt,
     {| ui := {| commitMessage := EmptyString; isLoading := false;
                 gitStatus := gitStatus Sample.ready_to_commit;
                 statusMessage := Msg.committed ++ slice 0 7 Sample.sha;
                 isExpanded := isExpanded Sample.ready_to_commit |};
        issued := [git_commit "fix typo"; git_status];
        inflight := [status Sample.granting [git_commit "fix typo"]] |})
  /\ prefix (slice 0 7 Sample.sha) Sample.sha = true
  /\ String.length (slice 0 7 Sample.sha)
     = Nat.min 7 (String.length Sample.sha).
Proof.
  apply (handleCommit_success Sample.granting Sample.ready_to_commit
           (sha := Sample.sha)).
  - discriminate.
  - reflexivity.
Defined.

(** C8, as stated, fails: with the message "fix typo" left in the input
    and an empty staged list, [handleCommit] does not stop at its guard: it
    sends the commit request. *)
Lemma commit_with_nothing_staged :
  issued (after (handleCommit Sample.granting) Sample.two_unstaged)
  = [git_commit "fix typo"; git_status]
  /\ ~ commit_guarded_by_message_and_staged Sample.granting
         Sample.two_unstaged.
Proof.
  split; [reflexivity|].
  intros H. specialize (H (or_intror eq_refl)).
  vm_compute in H. discriminate H.
Qed.

(** C8, amended.  The guard of [handleCommit] is on the message alone:
    whenever the commit message is empty, invoking it sends no request and
    leaves every state cell as it was.  An empty staged list, or no status
    yet, is what disables the message input ([commitMessageDisabled]). *)
Theorem handleCommit_guard (api : Api) (u : Controls) :
  (commitMessage u = EmptyString ->
   invoke (handleCommit api) u = (Normal tt, start u))
  /\ (commitMessageDisabled u = true <->
      gitStatus u = None
      \/ exists g, gitStatus u = Some g /\ staged g = []).
Proof.
  split.
  - intros Hmsg. unfold invoke, handleCommit. now rewrite Hmsg.
  - apply (nothing_in_true staged u).
Qed.

Lemma handleCommit_guard_witness :
  invoke (handleCommit Sample.granting) Sample.three_staged
  = (Normal tt, start Sample.three_staged).
Proof.
  apply (proj1 (handleCommit_guard Sample.granting Sample.three_staged)).
  reflexivity.
Defined.

(* ================================================================== *)
(** * Push and pull *)
(* ================================================================== *)

(** C9.  [handlePush] sends the push request and nothing else: no status
    request, on success or on failure, and [gitStatus] stays as it was,
    also once everything has settled.  [handlePull] sends one status
    request after a resolved pull request and none after a rejected one.
    Apart from that refresh, both change only the status message and the
    Loading flag. *)
Theorem push_and_pull_refresh (api : Api) (u : Controls) :
  invoke (handlePush api) u
  = (Normal tt,
     {| ui := idle_with match push api [] with
                        | Resolved _ => Msg.pushed
                        | Rejected _ => Msg.push_failed
                        end u;
        issued := [git_push];
        inflight := [] |})
  /\ gitStatus (ui (settled (handlePush api) u)) = gitStatus u
  /\ invoke (handlePull api) u
     = (Normal tt,
        match pull api [] with
        | Resolved _ =>
            {| ui := idle_with Msg.pulled u;
               issued := [git_pull; git_status];
               inflight := [status api [git_pull]] |}
        | Rejected _ =>
            {| ui := idle_with Msg.pull_failed u;
               issued := [git_pull];
               inflight := [] |}
        end).
Proof.
  assert (Hpush : invoke (handlePush api) u
                  = (Normal tt,
                     {| ui := idle_with match push api [] with
                                        | Resolved _ => Msg.pushed
                                        | Rejected _ => Msg.push_failed
                                        end u;
                        issued := [git_push];
                        inflight := [] |})).
  { unfold invoke, handlePush. run_async.
    destruct (push api []); reflexivity. }
  split; [exact Hpush|]. split.
  - unfold settled, after. rewrite Hpush. reflexivity.
  - unfold invoke, handlePull. run_async.
    destruct (pull api []); reflexivity.
Qed.

(* ================================================================== *)
(** * More on the classifier *)
(* ================================================================== *)

Lemma classify_is_table (m : StatusMatrix) : classify m = classify_table m.
Proof. unfold classify. now rewrite classify_heap_table. Qed.

(** X1.  Classification is row by row: the classification of two
    matrices put end to end is the classification of the first followed,
    list by list, by that of the second. *)
Theorem classify_app (m1 m2 : StatusMatrix) :
  classify (m1 ++ m2)
  = {| staged := staged (classify m1) ++ staged (classify m2);
       unstaged := unstaged (classify m1) ++ unstaged (classify m2) |}.
Proof.
  rewrite !classify_is_table. unfold classify_table; cbn.
  now rewrite !flat_map_app.
Qed.

Lemma Subseq_In {A : Type} (l1 l2 : list A) (a : A) :
  Subseq l1 l2 -> In a l1 -> In a l2.
Proof.
  induction 1 as [|x l1 l2 _ IH|x l1 l2 _ IH]; cbn; intuition.
Qed.

Lemma Subseq_NoDup {A : Type} (l1 l2 : list A) :
  Subseq l1 l2 -> NoDup l2 -> NoDup l1.
Proof.
  induction 1 as [|x l1 l2 Hs IH|x l1 l2 Hs IH]; intros Hnd.
  - constructor.
  - inversion Hnd; subst. auto.
  - inversion Hnd as [|? ? Hx Hl2]; subst. constructor; [|auto].
    intros Hin. apply Hx. eapply Subseq_In; eassumption.
Qed.

(** X2.  The lists are rendered with [key={file.filename}]: when the rows
    of the matrix have distinct file names, so have the entries of the
    staged list, and so have those of the unstaged list. *)
Theorem classify_keys_distinct (m : StatusMatrix) :
  NoDup (map entry_filename m) ->
  NoDup (map filename (staged (classify m)))
  /\ NoDup (map filename (unstaged (classify m))).
Proof.
  intros Hnd. rewrite classify_is_table; cbn. split.
  - eapply Subseq_NoDup; [|exact Hnd].
    apply Subseq_flat_map, table_staged_shape.
  - eapply Subseq_NoDup; [|exact Hnd].
    apply Subseq_flat_map, table_unstaged_shape.
Qed.

Lemma classify_keys_distinct_witness :
  let m := [("a.md", HeadStatus.PRESENT, WorkdirStatus.MODIFIED,
             StageStatus.MODIFIED_AGAIN);
            ("b.md", HeadStatus.PRESENT, WorkdirStatus.ABSENT,
             StageStatus.ABSENT)] in
  NoDup (map filename (staged (classify m)))
  /\ NoDup (map filename (unstaged (classify m))).
Proof.
  apply classify_keys_distinct. cbn.
  repeat constructor; cbn; intuition discriminate.
Defined.

(** The entries of each list, row by row. *)
Lemma in_staged_iff (m : StatusMatrix) (c : FileChange) :
  In c (staged (classify m)) <->
  exists head workTree stage,
    In (filename c, head, workTree, stage) m
    /\ fst (table_row head workTree stage) = Some (isDeleted c).
Proof.
  rewrite classify_is_table; cbn. rewrite in_flat_map. split.
  - intros ([[[name head] workTree] stage] & Hin & Hc).
    unfold table_staged in Hc.
    destruct (fst (table_row head workTree stage)) as [d|] eqn:Hrow;
      cbn in Hc; [|contradiction].
    destruct Hc as [<- | []]. cbn. eauto.
  - intros (head & workTree & stage & Hin & Hrow).
    exists (filename c, head, workTree, stage). split; [exact Hin|].
    unfold table_staged. rewrite Hrow. destruct c; now left.
Qed.

Lemma in_unstaged_iff (m : StatusMatrix) (c : FileChange) :
  In c (unstaged (classify m)) <->
  exists head workTree stage,
    In (filename c, head, workTree, stage) m
    /\ snd (table_row head workTree stage) = Some (isDeleted c).
Proof.
  rewrite classify_is_table; cbn. rewrite in_flat_map. split.
  - intros ([[[name head] workTree] stage] & Hin & Hc).
    unfold table_unstaged in Hc.
    destruct (snd (table_row head workTree stage)) as [d|] eqn:Hrow;
      cbn in Hc; [|contradiction].
    destruct Hc as [<- | []]. cbn. eauto.
  - intros (head & workTree & stage & Hin & Hrow).
    exists (filename c, head, workTree, stage). split; [exact Hin|].
    unfold table_unstaged. rewrite Hrow. destruct c; now left.
Qed.

(** X3.  Every entry of either list names a file of the matrix whose
    working copy is not identical to HEAD, and its [isDeleted] flag is set
    exactly when that working copy is absent. *)
Theorem listed_change_sound (m : StatusMatrix) (c : FileChange) :
  In c (staged (classify m)) \/ In c (unstaged (classify m)) ->
  exists head workTree stage,
    In (filename c, head, workTree, stage) m
    /\ workTree <> WorkdirStatus.IDENTICAL
    /\ (isDeleted c = true <-> workTree = WorkdirStatus.ABSENT).
Proof.
  intros [Hin | Hin];
    [apply in_staged_iff in Hin | apply in_unstaged_iff in Hin];
    destruct Hin as (head & workTree & stage & Hin & Hrow);
    exists head, workTree, stage; (split; [exact Hin|]);
    destruct head, workTree, stage; cbn in Hrow; try discriminate;
    injection Hrow as <-; (split; [discriminate|]);
    split; intros H; (reflexivity || discriminate H).
Qed.

Lemma listed_change_sound_witness :
  exists head workTree stage,
    In ("b.md", head, workTree, stage)
       [("b.md", HeadStatus.PRESENT, WorkdirStatus.ABSENT,
         StageStatus.ABSENT)]
    /\ workTree <> WorkdirStatus.IDENTICAL
    /\ (true = true <-> workTree = WorkdirStatus.ABSENT).
Proof.
  apply (@listed_change_sound
           [("b.md", HeadStatus.PRESENT, WorkdirStatus.ABSENT,
             StageStatus.ABSENT)]
           (mkFileChange "b.md" true)).
  left. cbn. now left.
Defined.

Lemma same_name_same_row (m : StatusMatrix) (r1 r2 : StatusMatrixEntry) :
  NoDup (map entry_filename m) ->
  In r1 m -> In r2 m -> entry_filename r1 = entry_filename r2 -> r1 = r2.
Proof.
  induction m as [|r m IH]; cbn; [contradiction|].
  intros Hnd [<- | H1] [<- | H2] Hname;
    inversion Hnd as [|? ? Hr Hm]; subst.
  - reflexivity.
  - exfalso. apply Hr. rewrite Hname. now apply in_map.
  - exfalso. apply Hr. rewrite <- Hname. now apply in_map.
  - now apply IH.
Qed.

(** X4.  When the rows have distinct file names, a file is listed both as
    staged and as unstaged exactly when its row is working copy MODIFIED,
    stage MODIFIED_AGAIN (staged, then modified again). *)
Theorem listed_twice_iff (m : StatusMatrix) (name : string) :
  NoDup (map entry_filename m) ->
  (In name (map filename (staged (classify m)))
   /\ In name (map filename (unstaged (classify m))))
  <-> exists head,
        In (name, head, WorkdirStatus.MODIFIED, StageStatus.MODIFIED_AGAIN)
           m.
Proof.
  intros Hnd. split.
  - intros [Hs Hu].
    apply in_map_iff in Hs as (cs & <- & Hs).
    apply in_map_iff in Hu as (cu & Hname & Hu).
    apply in_staged_iff in Hs as (h1 & w1 & s1 & Hin1 & Hrow1).
    apply in_unstaged_iff in Hu as (h2 & w2 & s2 & Hin2 & Hrow2).
    rewrite Hname in Hin2.
    pose proof (@same_name_same_row m _ _ Hnd Hin1 Hin2 eq_refl) as Heq.
    injection Heq as <- <- <-.
    exists h1.
    destruct h1, w1, s1; cbn in Hrow1, Hrow2; try discriminate; exact Hin1.
  - intros (head & Hin). split; apply in_map_iff;
      exists (mkFileChange name false); (split; [reflexivity|]);
      [apply in_staged_iff | apply in_unstaged_iff];
      exists head, WorkdirStatus.MODIFIED, StageStatus.MODIFIED_AGAIN;
      (split; [exact Hin|]); now destruct head.
Qed.

Lemma listed_twice_iff_witness :
  let m := [("a.md", HeadStatus.PRESENT, WorkdirStatus.MODIFIED,
             StageStatus.MODIFIED_AGAIN);
            ("b.md", HeadStatus.PRESENT, WorkdirStatus.ABSENT,
             StageStatus.ABSENT)] in
  (In "a.md" (map filename (staged (classify m)))
   /\ In "a.md" (map filename (unstaged (classify m))))
  <-> exists head,
        In ("a.md", head, WorkdirStatus.MODIFIED,
            StageStatus.MODIFIED_AGAIN) m.
Proof.
  apply listed_twice_iff. cbn.
  repeat constructor; cbn; intuition discriminate.
Defined.

(* ================================================================== *)
(** * [getFileName] *)
(* ================================================================== *)

Lemma append_snoc (s r : string) (c : ascii) :
  ((s ++ String c EmptyString) ++ r)%string = (s ++ String c r)%string.
Proof. induction s as [|a s IH]; cbn; [reflexivity | now rewrite IH]. Qed.

Lemma last_segment_no_slash (s cur : string) :
  contains_slash s = false -> last_segment s cur = (cur ++ s)%string.
Proof.
  revert cur; induction s as [|c s IH]; intros cur Hs; cbn in *.
  - induction cur as [|a cur IHc]; cbn; [reflexivity | now rewrite <- IHc].
  - apply orb_false_iff in Hs as [Hc Hs]. rewrite Hc.
    rewrite (IH (cur ++ String c EmptyString)%string Hs). apply append_snoc.
Qed.

Lemma last_segment_after_slash (dir rest cur : string) :
  last_segment (dir ++ String "/" rest) cur
  = last_segment rest EmptyString.
Proof.
  revert cur; induction dir as [|c dir IH]; intros cur; cbn.
  - reflexivity.
  - destruct (Ascii.eqb c "/"); apply IH.
Qed.

(** X5.  [getFileName] is the part of the path behind its last ['/']: a
    path without ['/'] is returned whole, [dir/name] gives [name], and a
    path that ends in ['/'] is returned whole, since there is no name left
    behind the separator. *)
Theorem getFileName_last_segment :
  (forall path, contains_slash path = false -> getFileName path = path)
  /\ (forall dir name,
        contains_slash name = false -> name <> EmptyString ->
        getFileName (dir ++ String "/" name) = name)
  /\ (forall dir,
        getFileName (dir ++ String "/" EmptyString)
        = (dir ++ String "/" EmptyString)%string).
Proof.
  unfold getFileName. repeat split.
  - intros path Hp. rewrite (@last_segment_no_slash path EmptyString Hp); cbn.
    now destruct (is_empty path).
  - intros dir name Hname Hne.
    rewrite last_segment_after_slash,
      (@last_segment_no_slash name EmptyString Hname); cbn.
    destruct name; [congruence | reflexivity].
  - intros dir. now rewrite last_segment_after_slash.
Qed.

Lemma getFileName_last_segment_witness :
  getFileName "README.md" = "README.md"
  /\ getFileName "notes/2024/todo.md" = "todo.md".
Proof.
  destruct getFileName_last_segment as (Hwhole & Hname & _). split.
  - apply Hwhole. reflexivity.
  - apply (Hname "notes/2024" "todo.md"); [reflexivity | discriminate].
Defined.

(* ================================================================== *)
(** * Single files, and the refresh button *)
(* ================================================================== *)

(** X6.  [handleStageFile] and [handleUnstageFile] send the request for
    the file; when it is resolved they show the file's name with the
    success text and send one status request; when it is rejected they
    show the name with the failure text and send no status request.  Both
    return normally with the Loading flag false and touch no other
    cell. *)
Theorem single_file_handlers_outcome (api : Api) (path : string)
  (u : Controls) :
  invoke (handleStageFile api path) u
  = (Normal tt,
     match add api path [] with
     | Resolved _ =>
         {| ui := idle_with (getFileName path ++ Msg.staged_one) u;
            issued := [git_add path; git_status];
            inflight := [status api [git_add path]] |}
     | Rejected _ =>
         {| ui := idle_with (getFileName path ++ Msg.stage_one_failed) u;
            issued := [git_add path];
            inflight := [] |}
     end)
  /\ invoke (handleUnstageFile api path) u
     = (Normal tt,
        match unstage api path [] with
        | Resolved _ =>
            {| ui := idle_with (getFileName path ++ Msg.unstaged_one) u;
               issued := [git_unstage path; git_status];
               inflight := [status api [git_unstage path]] |}
        | Rejected _ =>
            {| ui := idle_with
                       (getFileName path ++ Msg.unstage_one_failed) u;
               issued := [git_unstage path];
               inflight := [] |}
        end).
Proof.
  split.
  - unfold invoke, handleStageFile. run_async.
    destruct (add api path []); reflexivity.
  - unfold invoke, handleUnstageFile. run_async.
    destruct (unstage api path []); reflexivity.
Qed.

Lemma settle_one (s : Sys) (answer : result StatusMatrix) :
  inflight s = [answer] -> ui (settle s) = refreshed answer (ui s).
Proof.
  unfold settle. intros ->. cbn. now destruct answer.
Qed.

Lemma settle_none (s : Sys) : inflight s = [] -> ui (settle s) = ui s.
Proof. unfold settle. now intros ->. Qed.

(** X7.  The refresh button sends one status request and shows
    "Gitステータスを更新しました" at once, with the old status still in
    place.  When the answer arrives, a resolved one replaces the status by
    the classification of its matrix and the message stays; a rejected one
    leaves the status and replaces the message by the fetch-failed text.
    The Loading flag is never touched. *)
Theorem handleRefreshStatus_outcome (api : Api) (u : Controls) :
  invoke (handleRefreshStatus api) u
  = (Normal tt,
     {| ui := with_statusMessage status_updated_message u;
        issued := [git_status];
        inflight := [status api []] |})
  /\ ui (settled (handleRefreshStatus api) u)
     = match status api [] with
       | Resolved statusMatrix =>
           {| commitMessage := commitMessage u; isLoading := isLoading u;
              gitStatus := Some (classify statusMatrix);
              statusMessage := status_updated_message;
              isExpanded := isExpanded u |}
       | Rejected _ =>
           {| commitMessage := commitMessage u; isLoading := isLoading u;
              gitStatus := gitStatus u;
              statusMessage := Msg.status_failed;
              isExpanded := isExpanded u |}
       end.
Proof.
  split; [reflexivity|].
  unfold settled, after, invoke, handleRefreshStatus, settle; cbn.
  destruct (status api []); reflexivity.
Qed.

(* ================================================================== *)
(** * What every handler keeps *)
(* ================================================================== *)

Lemma calls_for_no_status (mk : string -> call) (files : list FileChange) :
  (forall f, mk f <> git_status) -> ~ In git_status (calls_for mk files).
Proof.
  intros Hmk Hin. apply in_map_iff in Hin as (file & Heq & _).
  exact (Hmk _ Heq).
Qed.

Lemma is_empty_neq (s : string) : is_empty s = false -> s <> EmptyString.
Proof. destruct s; [discriminate | congruence]. Qed.

(** The shape of a run of the handlers that walk a list. *)
Lemma all_handler_shape (api : Api)
  (list_of : GitStatus -> list FileChange) (mk : string -> call)
  (answer : string -> list call -> result unit) (done failed : string)
  (u : Controls) :
  (forall f, mk f <> git_status) ->
  exists l message,
    ~ In git_status l
    /\ ((after (all_handler api list_of mk answer done failed) u = start u
         /\ l = [])
        \/ after (all_handler api list_of mk answer done failed) u
           = {| ui := idle_with message u; issued := l; inflight := [] |}
        \/ after (all_handler api list_of mk answer done failed) u
           = {| ui := idle_with message u; issued := l ++ [git_status];
                inflight := [status api l] |}).
Proof.
  intros Hmk. unfold after.
  destruct (nothing_in list_of u) eqn:Hguard.
  - exists [], EmptyString. split; [now intros []|]. left.
    now rewrite all_handler_guard.
  - destruct (all_resolved_or_first_rejected answer mk
                (files_in list_of u) [])
      as [Hall | (pre & file & post & e & Hfiles & Hall & Hrej)].
    + exists (calls_for mk (files_in list_of u)), done.
      split; [now apply calls_for_no_status|]. right. right.
      now rewrite all_handler_all_resolved.
    + exists (calls_for mk (pre ++ [file])), failed.
      split; [now apply calls_for_no_status|]. right. left.
      now rewrite (all_handler_first_rejected api list_of mk answer done
                     failed u pre post file Hguard Hfiles Hall Hrej).
Qed.

(** The shape of a run of any of the seven handlers: it stopped at its
    guard, or it ended on a message without a status request, or it ended
    on a message with one status request behind the others. *)
Lemma handler_shape (api : Api) (op : operation) (u : Controls) :
  exists l u',
    ~ In git_status l
    /\ isLoading u' = false
    /\ gitStatus u' = gitStatus u
    /\ isExpanded u' = isExpanded u
    /\ (commitMessage u' = commitMessage u
        \/ (op = Commit /\ commitMessage u' = EmptyString))
    /\ ((after (handler api op) u = start u /\ l = [])
        \/ after (handler api op) u
           = {| ui := u'; issued := l; inflight := [] |}
        \/ after (handler api op) u
           = {| ui := u'; issued := l ++ [git_status];
                inflight := [status api l] |}).
Proof.
  assert (Hadd : forall f, git_add f <> git_status) by discriminate.
  assert (Hun : forall f, git_unstage f <> git_status) by discriminate.
  destruct op as [f|f| | | | | ]; cbn [handler].
  - exists [git_add f]. unfold after, invoke, handleStageFile. run_async.
    destruct (add api f []); eexists (idle_with _ u);
      (split; [intros [H|[]]; discriminate H|]);
      (do 3 (split; [reflexivity|]));
      (split; [left; reflexivity|]); [right; right | right; left];
      reflexivity.
  - exists [git_unstage f]. unfold after, invoke, handleUnstageFile.
    run_async.
    destruct (unstage api f []); eexists (idle_with _ u);
      (split; [intros [H|[]]; discriminate H|]);
      (do 3 (split; [reflexivity|]));
      (split; [left; reflexivity|]); [right; right | right; left];
      reflexivity.
  - rewrite handleStageAll_all_handler.
    destruct (all_handler_shape api unstaged git_add (add api)
                Msg.staged_all Msg.stage_all_failed u Hadd)
      as (l & message & Hl & Hshape).
    exists l, (idle_with message u). split; [exact Hl|].
    do 3 (split; [reflexivity|]). split; [left; reflexivity|].
    exact Hshape.
  - rewrite handleUnstageAll_all_handler.
    destruct (all_handler_shape api staged git_unstage (unstage api)
                Msg.unstaged_all Msg.unstage_all_failed u Hun)
      as (l & message & Hl & Hshape).
    exists l, (idle_with message u). split; [exact Hl|].
    do 3 (split; [reflexivity|]). split; [left; reflexivity|].
    exact Hshape.
  - destruct (is_empty (commitMessage u)) eqn:Hmsg.
    + exists [], (idle_with EmptyString u). split; [now intros []|].
      do 3 (split; [reflexivity|]). split; [left; reflexivity|].
      left. unfold after, invoke, handleCommit. now rewrite Hmsg.
    + exists [git_commit (commitMessage u)]. unfold after.
      rewrite (@handleCommit_run api u (@is_empty_neq _ Hmsg)).
      destruct (commit api (commitMessage u) []) as [sha|e].
      * exists {| commitMessage := EmptyString; isLoading := false;
                  gitStatus := gitStatus u;
                  statusMessage := Msg.committed ++ slice 0 7 sha;
                  isExpanded := isExpanded u |}.
        split; [intros [H|[]]; discriminate H|].
        do 3 (split; [reflexivity|]).
        split; [right; split; reflexivity|]. right; right. reflexivity.
      * exists (idle_with Msg.commit_failed u).
        split; [intros [H|[]]; discriminate H|].
        do 3 (split; [reflexivity|]).
        split; [left; reflexivity|]. right; left. reflexivity.
  - exists [git_push]. unfold after, invoke, handlePush. run_async.
    destruct (push api []); eexists (idle_with _ u);
      (split; [intros [H|[]]; discriminate H|]);
      (do 3 (split; [reflexivity|]));
      (split; [left; reflexivity|]); right; left; reflexivity.
  - exists [git_pull]. unfold after, invoke, handlePull. run_async.
    destruct (pull api []); eexists (idle_with _ u);
      (split; [intros [H|[]]; discriminate H|]);
      (do 3 (split; [reflexivity|]));
      (split; [left; reflexivity|]); [right; right | right; left];
      reflexivity.
Qed.

(** X8.  Whatever the capability answers, each of the seven handlers
    sends at most one status request, and always as its last request,
    after every other request of the run has been answered; once things
    have settled the component is what the handler left, changed only by
    the capability's answer to that status request (the classification of
    the matrix, or the fetch-failed message). *)
Theorem refresh_is_last_and_single (api : Api) (op : operation)
  (u : Controls) :
  exists l,
    ~ In git_status l
    /\ ((issued (after (handler api op) u) = l
         /\ ui (settled (handler api op) u) = ui (after (handler api op) u))
        \/ (issued (after (handler api op) u) = l ++ [git_status]
            /\ ui (settled (handler api op) u)
               = refreshed (status api l) (ui (after (handler api op) u)))).
Proof.
  destruct (handler_shape api op u)
    as (l & u' & Hl & _ & _ & _ & _ & [[Hs Hnil] | [Hs | Hs]]);
    exists l; (split; [exact Hl|]); unfold settled; rewrite Hs.
  - left. rewrite Hnil. split; reflexivity.
  - left. split; reflexivity.
  - right. split; [reflexivity|]. now apply settle_one.
Qed.

(** X9.  No handler writes the status itself or the expanded flag: when a
    handler returns, [gitStatus] and [isExpanded] are what they were (the
    status only changes when a status answer arrives), and the message
    input is what it was unless the handler is the commit handler, which
    may have emptied it. *)
Theorem handlers_frame (api : Api) (op : operation) (u : Controls) :
  gitStatus (ui (after (handler api op) u)) = gitStatus u
  /\ isExpanded (ui (after (handler api op) u)) = isExpanded u
  /\ (commitMessage (ui (after (handler api op) u)) = commitMessage u
      \/ (op = Commit
          /\ commitMessage (ui (after (handler api op) u)) = EmptyString))
  /\ commitMessage (ui (settled (handler api op) u))
     = commitMessage (ui (after (handler api op) u))
  /\ isExpanded (ui (settled (handler api op) u)) = isExpanded u.
Proof.
  destruct (handler_shape api op u)
    as (l & u' & _ & _ & Hg & He & Hc & [[Hs _] | [Hs | Hs]]);
    unfold settled; rewrite Hs; cbn [ui start];
    try (rewrite settle_none by reflexivity; cbn [ui];
         repeat split; auto).
  rewrite (@settle_one _ (status api l)) by reflexivity. cbn [ui].
  repeat split; auto; destruct (status api l); cbn; auto.
Qed.

(** X10.  When the status request a handler sends at the end of a
    successful operation is rejected, the success message of that
    operation is replaced by the fetch-failed text; the status the
    component shows is still the one from before the operation, and the
    Loading flag is false. *)
Theorem failed_refresh_replaces_message (api : Api) (op : operation)
  (u : Controls) (l : list call) (e : string) :
  issued (after (handler api op) u) = l ++ [git_status] ->
  status api l = Rejected e ->
  statusMessage (ui (settled (handler api op) u)) = Msg.status_failed
  /\ gitStatus (ui (settled (handler api op) u)) = gitStatus u
  /\ isLoading (ui (settled (handler api op) u)) = false.
Proof.
  intros Hissued Hrej.
  destruct (handler_shape api op u)
    as (l' & u' & Hl & Hload & Hg & _ & _ & [[Hs ->] | [Hs | Hs]]);
    rewrite Hs in Hissued; cbn [issued start] in Hissued.
  - now destruct l.
  - exfalso. apply Hl. rewrite Hissued. apply in_or_app. right. now left.
  - apply app_inj_tail in Hissued as [-> _].
    unfold settled. rewrite Hs.
    rewrite (@settle_one _ (status api l)) by reflexivity.
    rewrite Hrej. cbn. auto.
Qed.

Lemma failed_refresh_replaces_message_witness :
  statusMessage (ui (settled (handler Sample.granting_once Commit)
                             Sample.ready_to_commit))
  = Msg.status_failed
  /\ gitStatus (ui (settled (handler Sample.granting_once Commit)
                            Sample.ready_to_commit))
     = gitStatus Sample.ready_to_commit
  /\ isLoading (ui (settled (handler Sample.granting_once Commit)
                            Sample.ready_to_commit)) = false.
Proof.
  apply (@failed_refresh_replaces_message Sample.granting_once Commit
           Sample.ready_to_commit [git_commit "fix typo"] "busy");
    reflexivity.
Defined.

(* ================================================================== *)
(** * Buttons and handlers *)
(* ================================================================== *)

Lemma some_in_true (list_of : GitStatus -> list FileChange)
  (u : Controls) :
  some_in list_of u = true -> nothing_in list_of u = false.
Proof.
  unfold some_in, nothing_in. destruct (gitStatus u) as [g|];
    [|discriminate].
  now destruct (list_of g).
Qed.

(** What it takes for a button to be in the document and enabled. *)
Lemma clickable_inv (u : Controls) (b : button) :
  clickable u b ->
  isExpanded u = true
  /\ match b with
     | RefreshButton => True
     | StageAllButton =>
         nothing_in unstaged u = false /\ isLoading u = false
     | UnstageAllButton =>
         nothing_in staged u = false /\ isLoading u = false
     | UnstageButton f =>
         isLoading u = false
         /\ exists g, gitStatus u = Some g /\ In f (map filename (staged g))
     | StageButton f =>
         isLoading u = false
         /\ exists g,
              gitStatus u = Some g /\ In f (map filename (unstaged g))
     | CommitButton => is_empty (commitMessage u) = false
     | PushButton | PullButton => isLoading u = false
     end.
Proof.
  unfold clickable, buttons.
  destruct (isExpanded u); cbn [shown]; [|contradiction].
  intros Hin. split; [reflexivity|].
  repeat (apply in_app_or in Hin as [Hin | Hin]).
  - destruct Hin as [Heq | []]. now injection Heq as <-.
  - destruct (some_in unstaged u) eqn:Hsome; cbn in Hin; [|contradiction].
    destruct Hin as [Heq | []]. injection Heq as <- Hload.
    split; [now apply some_in_true | exact Hload].
  - destruct (some_in staged u) eqn:Hsome; cbn in Hin; [|contradiction].
    destruct Hin as [Heq | []]. injection Heq as <- Hload.
    split; [now apply some_in_true | exact Hload].
  - destruct (gitStatus u) as [g|] eqn:Hg; [|contradiction].
    apply in_app_or in Hin as [Hin | Hin];
      match type of Hin with
      | In _ (shown ?c _) => destruct c; cbn [shown] in Hin;
                             [|contradiction]
      end;
      apply in_map_iff in Hin as (file & Heq & Hfile);
      injection Heq as <- Hload;
      (split; [exact Hload|]); exists g; (split; [reflexivity|]);
      now apply in_map.
  - destruct Hin as [Heq | [Heq | [Heq | []]]]; injection Heq as <- H;
      exact H.
Qed.

(** X11.  A press on any button the user can press sends at least one
    request: the stage-all and unstage-all buttons are only in the document
    when their list is not empty, and the commit button is only enabled
    when there is a message, so the guards at the head of those three
    handlers never stop a press. *)
Theorem press_sends_request (api : Api) (u : Controls) (b : button) :
  clickable u b -> issued (after (onClick api b) u) <> [].
Proof.
  intros Hb. apply clickable_inv in Hb as [_ Hb].
  destruct b as [| | |f|f| | |]; cbn [onClick].
  - discriminate.
  - rewrite handleStageAll_all_handler. apply all_handler_sends, Hb.
  - rewrite handleUnstageAll_all_handler. apply all_handler_sends, Hb.
  - unfold after, invoke, handleUnstageFile. run_async.
    destruct (unstage api f []); discriminate.
  - unfold after, invoke, handleStageFile. run_async.
    destruct (add api f []); discriminate.
  - unfold after. rewrite (@handleCommit_run api u (@is_empty_neq _ Hb)).
    destruct (commit api (commitMessage u) []); discriminate.
  - unfold after, invoke, handlePush. run_async.
    destruct (push api []); discriminate.
  - unfold after, invoke, handlePull. run_async.
    destruct (pull api []); discriminate.
Qed.

Lemma press_sends_request_witness :
  issued (after (onClick Sample.rejecting StageAllButton)
                Sample.two_unstaged) <> [].
Proof.
  apply press_sends_request.
  unfold clickable. cbn. right. now left.
Defined.



(* ================================================================== *)
(** * The application shell and the settings panel *)
(* ================================================================== *)

Ltac run_shell :=
  unfold eff_try_catch_finally, eff_try_catch, eff_bind, shell_await,
    shell_request, eff_awaited; cbn.

Lemma truthy_nonempty (path : string) :
  path <> EmptyString -> truthy (Some path) = Some path.
Proof. destruct path; cbn; congruence. Qed.

(** The run of [handleFileSelect]. *)
Lemma file_select_run (api : ShellApi) (path : string) (a : AppState)
  (p : PanelState) :
  handleFileSelect api path a (shell_start a p)
  = (Normal tt,
     {| shell_app :=
          {| selectedFile := Some path;
             fileContent :=
               match readFile api path [] with
               | Resolved content => content
               | Rejected _ => fileContent a
               end;
             isSettingsOpen := isSettingsOpen a;
             hasGitSettings := hasGitSettings a |};
        shell_panel := p;
        sent := [fs_readFile path];
        settings_inflight := [] |}).
Proof.
  unfold handleFileSelect, shell_start. run_shell.
  destruct (readFile api path []); reflexivity.
Qed.

(** X13.  [handleFileSelect] never throws and always makes the path the
    selected file; the content shown is replaced by what was read when the
    read is resolved and stays the previous file's content when the read is
    rejected. *)
Theorem handleFileSelect_outcome (api : ShellApi) (path : string)
  (a : AppState) (p : PanelState) :
  handleFileSelect api path a (shell_start a p)
  = (Normal tt,
     {| shell_app :=
          {| selectedFile := Some path;
             fileContent :=
               match readFile api path [] with
               | Resolved content => content
               | Rejected _ => fileContent a
               end;
             isSettingsOpen := isSettingsOpen a;
             hasGitSettings := hasGitSettings a |};
        shell_panel := p;
        sent := [fs_readFile path];
        settings_inflight := [] |}).
Proof.
  unfold handleFileSelect, shell_start. run_shell.
  destruct (readFile api path []); reflexivity.
Qed.

(** X14.  After a read that was rejected, the save button is enabled and a
    press writes to the newly selected path what belongs to the file shown
    before: the editor's markdown when an editor is mounted, the previous
    content otherwise. *)
Theorem save_after_failed_read (api : ShellApi) (path e : string)
  (editorRef_current : option string) (a : AppState) (p : PanelState) :
  path <> EmptyString ->
  readFile api path [] = Rejected e ->
  saveButton_disabled
    (shell_app (snd (handleFileSelect api path a (shell_start a p))))
  = false
  /\ sent (snd (handleSave api editorRef_current
                  (shell_app (snd (handleFileSelect api path a
                                     (shell_start a p))))
                  (snd (handleFileSelect api path a (shell_start a p)))))
     = [fs_readFile path;
        fs_writeFile path match editorRef_current with
                          | Some markdown => markdown
                          | None => fileContent a
                          end].
Proof.
  intros Hpath Hread. rewrite file_select_run, Hread.
  cbn [snd shell_app]. unfold saveButton_disabled, handleSave.
  cbn [selectedFile fileContent]. rewrite (truthy_nonempty Hpath).
  split; [reflexivity|]. run_shell.
  now destruct (writeFile api path _ _).
Qed.

Lemma save_after_failed_read_witness :
  saveButton_disabled
    (shell_app (snd (handleFileSelect ShellSample.unreadable "b.md"
                       ShellSample.editing
                       (shell_start ShellSample.editing
                          ShellSample.panel_with_notes))))
  = false
  /\ sent (snd (handleSave ShellSample.unreadable None
                  (shell_app (snd (handleFileSelect ShellSample.unreadable
                                     "b.md" ShellSample.editing
                                     (shell_start ShellSample.editing
                                        ShellSample.panel_with_notes))))
                  (snd (handleFileSelect ShellSample.unreadable "b.md"
                          ShellSample.editing
                          (shell_start ShellSample.editing
                             ShellSample.panel_with_notes)))))
     = [fs_readFile "b.md"; fs_writeFile "b.md" "# A"].
Proof.
  apply (@save_after_failed_read ShellSample.unreadable "b.md" "ENOENT"
           None ShellSample.editing ShellSample.panel_with_notes).
  - discriminate.
  - reflexivity.
Defined.

(** X15.  [handleSave] sends one write, to the selected file, and none
    when no file is selected ([null] or the empty path); it never throws
    and sets no state, whether the write is resolved or rejected, so a
    failed save leaves no trace in the component. *)
Theorem handleSave_outcome (api : ShellApi)
  (editorRef_current : option string) (a : AppState) (s : Shell) :
  handleSave api editorRef_current a s
  = (Normal tt,
     {| shell_app := shell_app s;
        shell_panel := shell_panel s;
        sent := sent s
                ++ match truthy (selectedFile a) with
                   | Some path =>
                       [fs_writeFile path
                          match editorRef_current with
                          | Some markdown => markdown
                          | None => fileContent a
                          end]
                   | None => []
                   end;
        settings_inflight := settings_inflight s |}).
Proof.
  unfold handleSave. destruct (truthy (selectedFile a)) as [path|].
  - run_shell. now destruct (writeFile api path _ _).
  - destruct s; cbn. now rewrite app_nil_r.
Qed.

(** X16.  [checkGitSettings] never throws, and it sets [hasGitSettings]
    exactly when the settings request is resolved with saved settings
    whose root directory path is not empty: no saved settings, an empty
    path and a rejected request all clear it. *)
Theorem checkGitSettings_outcome (api : ShellApi) (s : Shell) :
  fst (checkGitSettings api s) = Normal tt
  /\ sent (snd (checkGitSettings api s)) = sent s ++ [app_getSettings]
  /\ (hasGitSettings (shell_app (snd (checkGitSettings api s))) = true
      <-> exists saved,
            getSettings api (sent s) = Resolved (Some saved)
            /\ rootDirectory_path saved <> EmptyString).
Proof.
  unfold checkGitSettings. run_shell.
  destruct (getSettings api (sent s)) as [[saved|]|e]; cbn;
    (split; [reflexivity|]); (split; [reflexivity|]); split.
  - intros H. exists saved. split; [reflexivity|].
    destruct (rootDirectory_path saved); [discriminate H | discriminate].
  - intros (saved' & Heq & Hne). injection Heq as <-.
    destruct (rootDirectory_path saved); [congruence | reflexivity].
  - discriminate.
  - intros (saved & Heq & _). discriminate Heq.
  - discriminate.
  - intros (saved & Heq & _). discriminate Heq.
Qed.


(** The run of the panel's save button when storing succeeds. *)
Lemma save_settings_stored (api : ShellApi) (a : AppState)
  (p : PanelState) :
  (exists v, setSettings api (settings p) [] = Resolved v) ->
  snd (saveSettings api p (shell_start a p))
  = {| shell_app :=
         {| selectedFile := selectedFile a;
            fileContent := fileContent a;
            isSettingsOpen := false;
            hasGitSettings := hasGitSettings a |};
       shell_panel :=
         {| settings := settings p; isSaving := false;
            saveMessage := Some (SaveSuccess settings_saved_text) |};
       sent := [app_setSettings (settings p); app_getSettings];
       settings_inflight :=
         [getSettings api [app_setSettings (settings p)]] |}.
Proof.
  intros (v & Hv).
  unfold saveSettings, panel_handleSave, handleSettingsChange,
    checkGitSettings_call, shell_start.
  run_shell. now rewrite Hv.
Qed.

(** X18.  Saving and then looking again: when the settings are stored and
    the settings request that follows returns them, then, once its answer
    has arrived, the panel is closed and [GitControls] is mounted exactly
    when the saved root directory path is not empty. *)
Theorem saved_root_mounts_git_controls (api : ShellApi) (a : AppState)
  (p : PanelState) :
  setSettings api (settings p) [] = Resolved tt ->
  getSettings api [app_setSettings (settings p)]
  = Resolved (Some (settings p)) ->
  gitControls_mounted
    (shell_app (shell_settle (snd (saveSettings api p (shell_start a p)))))
  = negb (is_empty (rootDirectory_path (settings p)))
  /\ isSettingsOpen
       (shell_app (shell_settle (snd (saveSettings api p
                                        (shell_start a p)))))
     = false.
Proof.
  intros Hset Hget.
  rewrite save_settings_stored by (exists tt; exact Hset).
  unfold shell_settle; cbn. rewrite Hget. cbn. split; reflexivity.
Qed.

Lemma saved_root_mounts_git_controls_witness :
  gitControls_mounted
    (shell_app (shell_settle
                  (snd (saveSettings ShellSample.unreadable
                          ShellSample.panel_with_notes
                          (shell_start ShellSample.settings_open
                             ShellSample.panel_with_notes)))))
  = negb (is_empty (rootDirectory_path
                      (settings ShellSample.panel_with_notes)))
  /\ isSettingsOpen
       (shell_app (shell_settle
                     (snd (saveSettings ShellSample.unreadable
                             ShellSample.panel_with_notes
                             (shell_start ShellSample.settings_open
                                ShellSample.panel_with_notes)))))
     = false.
Proof.
  apply (@saved_root_mounts_git_controls ShellSample.unreadable
           ShellSample.settings_open ShellSample.panel_with_notes);
    reflexivity.
Defined.

(** X19.  [loadSettings] never throws; it replaces the panel's settings
    by the saved ones when there are some, and leaves them as they are
    (the empty defaults, on mount) when nothing was saved or the request
    is rejected.  It touches no other cell. *)
Theorem loadSettings_outcome (api : ShellApi) (s : Shell) :
  loadSettings api s
  = (Normal tt,
     {| shell_app := shell_app s;
        shell_panel :=
          {| settings :=
               match getSettings api (sent s) with
               | Resolved (Some saved) => saved
               | Resolved None | Rejected _ => settings (shell_panel s)
               end;
             isSaving := isSaving (shell_panel s);
             saveMessage := saveMessage (shell_panel s) |};
        sent := sent s ++ [app_getSettings];
        settings_inflight := settings_inflight s |}).
Proof.
  unfold loadSettings. run_shell.
  destruct (getSettings api (sent s)) as [[saved|]|e]; cbn;
    try reflexivity; destruct s as [a [st sv msg] snt infl]; reflexivity.
Qed.

(** X20.  [handleSelectDirectory] never throws; it replaces the root
    directory path when the dialog returns a path that is not empty, and
    only that path: remote URL, token and author stay.  A dismissed
    dialog, an empty path and a rejected request change nothing. *)
Theorem handleSelectDirectory_outcome (api : ShellApi) (s : Shell) :
  handleSelectDirectory api s
  = (Normal tt,
     {| shell_app := shell_app s;
        shell_panel :=
          {| settings :=
               match selectDirectory api (sent s) with
               | Resolved dirPath =>
                   match truthy dirPath with
                   | Some path =>
                       {| rootDirectory_path := path;
                          git_remoteUrl :=
                            git_remoteUrl (settings (shell_panel s));
                          git_token := git_token (settings (shell_panel s));
                          git_author :=
                            git_author (settings (shell_panel s)) |}
                   | None => settings (shell_panel s)
                   end
               | Rejected _ => settings (shell_panel s)
               end;
             isSaving := isSaving (shell_panel s);
             saveMessage := saveMessage (shell_panel s) |};
        sent := sent s ++ [dialog_selectDirectory];
        settings_inflight := settings_inflight s |}).
Proof.
  unfold handleSelectDirectory. run_shell.
  destruct (selectDirectory api (sent s)) as [dirPath|e]; cbn.
  - destruct (truthy dirPath); cbn; try reflexivity;
      destruct s as [a [st sv msg] snt infl]; reflexivity.
  - destruct s as [a [st sv msg] snt infl]; reflexivity.
Qed.

(* ================================================================== *)
(** * The earlier [GitControls] *)
(* ================================================================== *)

Ltac run_legacy :=
  unfold eff_try_catch_finally, eff_try_catch, eff_bind, Legacy.await,
    Legacy.request, eff_awaited, Legacy.rootDirectory_path_of, eff_throw,
    eff_ret; cbn.




(** X21.  In the earlier version [handleStageAll] reads the settings
    first: when that request is rejected, or nothing was saved, it sends no
    stage request and no status refresh, shows the stage-failed message and
    ends with the Loading flag false. *)
Theorem legacy_stage_all_without_settings (api : Legacy.Api)
  (u : Legacy.Controls) :
  Legacy.nothing_unstaged u = false ->
  Legacy.settings_read (Legacy.getSettings api []) = None ->
  Legacy.handleStageAll api u (Legacy.start u)
  = (Normal tt,
     {| Legacy.ui := Legacy.idle_with Msg.stage_all_failed u;
        Legacy.issued := [Legacy.app_getSettings];
        Legacy.inflight := [] |}).
Proof.
  intros Hguard Hread. unfold Legacy.handleStageAll. rewrite Hguard.
  run_legacy.
  destruct (Legacy.getSettings api []) as [[st|]|e]; cbn in *;
    [discriminate | reflexivity | reflexivity].
Qed.

Lemma legacy_stage_all_without_settings_witness :
  Legacy.handleStageAll Legacy.Sample.no_settings
    Legacy.Sample.two_unstaged (Legacy.start Legacy.Sample.two_unstaged)
  = (Normal tt,
     {| Legacy.ui :=
          Legacy.idle_with Msg.stage_all_failed Legacy.Sample.two_unstaged;
        Legacy.issued := [Legacy.app_getSettings];
        Legacy.inflight := [] |}).
Proof.
  apply legacy_stage_all_without_settings; reflexivity.
Defined.




(** X23.  The earlier [fetchGitStatus] never throws.  Without settings
    (request rejected, or nothing saved) it sends no status request and
    shows the fetch-failed message; with settings it asks the status of
    the root directory they name, and then behaves as the later version:
    the classification of the matrix on success, the fetch-failed message
    and the old status on failure. *)
Theorem legacy_fetchGitStatus_outcome (api : Legacy.Api) (s : Legacy.Sys) :
  Legacy.fetchGitStatus api s
  = (Normal tt,
     match Legacy.settings_read (Legacy.getSettings api (Legacy.issued s))
     with
     | None =>
         {| Legacy.ui := Legacy.fetch_failed (Legacy.ui s);
            Legacy.issued := Legacy.issued s ++ [Legacy.app_getSettings];
            Legacy.inflight := Legacy.inflight s |}
     | Some saved =>
         {| Legacy.ui :=
              match Legacy.status api (rootDirectory_path saved)
                      (Legacy.issued s ++ [Legacy.app_getSettings]) with
              | Resolved statusMatrix =>
                  {| Legacy.commitMessage :=
                       Legacy.commitMessage (Legacy.ui s);
                     Legacy.isLoading := Legacy.isLoading (Legacy.ui s);
                     Legacy.gitStatus := Some (classify statusMatrix);
                     Legacy.statusMessage :=
                       Legacy.statusMessage (Legacy.ui s);
                     Legacy.showSettings :=
                       Legacy.showSettings (Legacy.ui s);
                     Legacy.isExpanded := Legacy.isExpanded (Legacy.ui s) |}
              | Rejected _ => Legacy.fetch_failed (Legacy.ui s)
              end;
            Legacy.issued :=
              (Legacy.issued s ++ [Legacy.app_getSettings])
              ++ [Legacy.git_status (rootDirectory_path saved)];
            Legacy.inflight := Legacy.inflight s |}
     end).
Proof.
  unfold Legacy.fetchGitStatus. run_legacy.
  destruct (Legacy.getSettings api (Legacy.issued s)) as [[saved|]|e]; cbn;
    try reflexivity.
  destruct (Legacy.status api (rootDirectory_path saved) _); reflexivity.
Qed.
